(** * gh-migrate-variables

    A shallow embedding of the synchronisation core of gh-migrate-variables
    (package [api]: proxy selection, retry policy, variable reader and writer,
    repository listing; package [sync]: the sync orchestrator; package
    [export]: the export orchestrator; package [cmd]: the endpoint of the
    connection), with the properties of its specification and further
    properties of the code. What the program prints (spinner, log lines, summaries) is
    left out.

    Go values are modelled as follows.
    - [int], [time.Duration]: [Z], 64-bit wrap-around written out with
      [wrap64];
    - [string]: [string] (a sequence of bytes, as in Go);
    - [error]: the inductive [error] below, [nil] being [None];
    - pointers that may be [nil]: [option];
    - [map[string]string]: [gmap string string];
    - remote calls and the clock: explicit state passing over an abstract
      world [W], the responses being given by an environment record. *)

From Stdlib Require Import ZArith Lia Ascii DecimalString.
From stdpp Require Import strings list gmap.

Local Open Scope string_scope.
Local Open Scope Z_scope.

(** ** Go errors *)

(** [errorString] is the value built by [errors.New] and by [fmt.Errorf]
    without [%w] (and stands for any error of a library); [wrapError] is the
    value built by [fmt.Errorf] with one [%w] verb: it carries the whole
    formatted message and the wrapped error. *)
Inductive error : Type :=
| errorString (msg : string)
| wrapError (msg : string) (err : error).

Definition Error (e : error) : string :=
  match e with
  | errorString msg => msg
  | wrapError msg _ => msg
  end.

Definition Unwrap (e : error) : option error :=
  match e with
  | errorString _ => None
  | wrapError _ err => Some err
  end.

(** [fmt.Errorf(prefix + "%w", err)] *)
Definition Errorf_w (prefix : string) (err : error) : error :=
  wrapError (prefix +:+ Error err) err.

(** The [%d] verb. *)
Definition Itoa (z : Z) : string := NilZero.string_of_int (Z.to_int z).

(** ** 64-bit integers *)

Definition wrap64 (z : Z) : Z := (z + 2 ^ 63) mod 2 ^ 64 - 2 ^ 63.

Definition int64_range (z : Z) : Prop := - 2 ^ 63 <= z < 2 ^ 63.

(** [uint(x)] for an [int] x *)
Definition to_uint (z : Z) : Z := z mod 2 ^ 64.

(** [x << s] at type [int64], [s] unsigned *)
Definition shl64 (x s : Z) : Z := wrap64 (Z.shiftl x s).

Definition mul64 (x y : Z) : Z := wrap64 (x * y).

Definition time_Second : Z := 1000000000.

(** ** Configuration (viper) *)

(** The settings read through viper. [RETRY_DELAY] holds the result of
    [time.ParseDuration(viper.GetString("RETRY_DELAY"))]: the duration in
    nanoseconds, or [None] when parsing fails. *)
Record Settings : Type := {
  RETRY_MAX : Z;
  RETRY_DELAY : option Z;
  HTTP_PROXY : string;
  HTTPS_PROXY : string;
  NO_PROXY : string;
  source_hostname : string;
  source_organization : string;
  source_token : string;
  setting_file : string;
  target_hostname : string;
  target_organization : string;
  target_token : string
}.

(** ** Retry policy ([retryWithExponentialBackoff]) *)

(** A context, as the policy sees it: at the [select] of the backoff wait
    that follows attempt [attempt] and lasts [waitTime], either the case
    [<-ctx.Done()] is taken, and [ctx.Err()] is the error given, or the
    timer case is taken ([None]). *)
Definition GoContext : Type := Z -> Z -> option error.

(** What one call of the policy did: the error returned, the number of
    times the operation was invoked, the backoff waits that ran to
    completion, and the state the operation left. *)
Record RetryRun (St : Type) : Type := {
  run_err : option error;
  run_attempts : nat;
  run_waits : list Z;
  run_state : St
}.
Arguments run_err {St} _.
Arguments run_attempts {St} _.
Arguments run_waits {St} _.
Arguments run_state {St} _.

Definition maxRetries_of (cfg : Settings) : Z :=
  if RETRY_MAX cfg <=? 0 then 3 else RETRY_MAX cfg.

Definition retryDelay_of (cfg : Settings) : Z :=
  match RETRY_DELAY cfg with
  | Some d => d
  | None => time_Second
  end.

(** [retryDelay * time.Duration(1<<uint(attempt-1))] *)
Definition waitTime_of (retryDelay attempt : Z) : Z :=
  mul64 retryDelay (shl64 1 (to_uint (attempt - 1))).

Section Retry.
Context {St : Type}.
Variable cfg : Settings.
Variable ctx : GoContext.
(** The operation is a closure [func() error]; what it captures and
    changes is the state [St]. *)
Variable operation : St -> option error * St.

(** The [for attempt := 1; attempt <= maxRetries; attempt++] loop, by
    recursion on the number [remaining] of iterations left, which is
    [maxRetries - attempt + 1]: the condition [attempt <= maxRetries] is
    [remaining > 0], and [attempt] goes from 1 to [maxRetries]. *)
Fixpoint retry_loop (remaining : nat) (attempt : Z) (lastErr : option error)
    (waits : list Z) (calls : nat) (s : St) : RetryRun St :=
  match remaining with
  | O =>
      {| run_err :=
           Some match lastErr with
                | Some e =>
                    Errorf_w ("operation failed after "
                              +:+ Itoa (maxRetries_of cfg) +:+ " attempts: ") e
                | None =>
                    errorString ("operation failed after "
                                 +:+ Itoa (maxRetries_of cfg)
                                 +:+ " attempts: %!w(<nil>)")
                end;
         run_attempts := calls; run_waits := waits; run_state := s |}
  | S r =>
      match operation s with
      | (None, s') =>
          {| run_err := None; run_attempts := S calls;
             run_waits := waits; run_state := s' |}
      | (Some err, s') =>
          if attempt <? maxRetries_of cfg then
            let waitTime := waitTime_of (retryDelay_of cfg) attempt in
            match ctx attempt waitTime with
            | Some cerr =>
                {| run_err := Some (Errorf_w "operation cancelled: " cerr);
                   run_attempts := S calls;
                   run_waits := waits; run_state := s' |}
            | None =>
                retry_loop r (attempt + 1) (Some err) (waits ++ [waitTime])%list
                           (S calls) s'
            end
          else
            retry_loop r (attempt + 1) (Some err) waits (S calls) s'
      end
  end.

Definition retryWithExponentialBackoff (s : St) : RetryRun St :=
  retry_loop (Z.to_nat (maxRetries_of cfg)) 1 None [] O s.

(** The state before the invocation of index [i] (from 0), and what that
    invocation returns, when the operation is invoked again and again from
    [s]. *)
Fixpoint state_at (s : St) (i : nat) : St :=
  match i with
  | O => s
  | S i' => state_at (snd (operation s)) i'
  end.

Definition outcome_at (s : St) (i : nat) : option error :=
  fst (operation (state_at s i)).

(** The operation fails exactly [k] times and then succeeds. *)
Definition fails_then_succeeds (s : St) (k : nat) : Prop :=
  (forall i, (i < k)%nat -> outcome_at s i <> None) /\ outcome_at s k = None.

Definition always_fails (s : St) : Prop :=
  forall i, outcome_at s i <> None.
End Retry.

(** ** Strings ([strings.Split], [strings.TrimSpace]) *)

(** [strings.Split(s, sep)] for a separator [sep] of one byte: the pieces
    between the separators, one more than there are separators. *)
Fixpoint Split (s : string) (sep : ascii) : list string :=
  match s with
  | EmptyString => [""]
  | String c s' =>
      if Ascii.eqb c sep then "" :: Split s' sep
      else match Split s' sep with
           | piece :: rest => String c piece :: rest
           | [] => [String c ""]
           end
  end.

Definition byte_val (c : ascii) : Z := Z.of_N (N_of_ascii c).

(** The white space of [unicode.IsSpace], in UTF-8: the six ASCII characters,
    U+0085 and U+00A0 on two bytes, and U+1680, U+2000 to U+200A, U+2028,
    U+2029, U+202F, U+205F and U+3000 on three. *)
Definition asciiSpace (c : ascii) : bool :=
  let b := byte_val c in ((9 <=? b) && (b <=? 13)) || (b =? 32).

Definition space2 (c1 c2 : ascii) : bool :=
  (byte_val c1 =? 194) && ((byte_val c2 =? 133) || (byte_val c2 =? 160)).

Definition space3 (c1 c2 c3 : ascii) : bool :=
  let b1 := byte_val c1 in
  let b2 := byte_val c2 in
  let b3 := byte_val c3 in
  ((b1 =? 225) && (b2 =? 154) && (b3 =? 128))
  || ((b1 =? 226) && (b2 =? 128)
      && (((128 <=? b3) && (b3 <=? 138)) || (b3 =? 168) || (b3 =? 169)
          || (b3 =? 175)))
  || ((b1 =? 226) && (b2 =? 129) && (b3 =? 159))
  || ((b1 =? 227) && (b2 =? 128) && (b3 =? 128)).

(** Removes the white space at the front of [s]; with [backwards], [s] is a
    reversed string and the bytes of a character come last byte first. *)
Fixpoint trim_front (backwards : bool) (s : string) : string :=
  match s with
  | String c1 s1 =>
      if asciiSpace c1 then trim_front backwards s1
      else
        match s1 with
        | String c2 s2 =>
            if (if backwards then space2 c2 c1 else space2 c1 c2)
            then trim_front backwards s2
            else
              match s2 with
              | String c3 s3 =>
                  if (if backwards then space3 c3 c2 c1 else space3 c1 c2 c3)
                  then trim_front backwards s3
                  else s
              | EmptyString => s
              end
        | EmptyString => s
        end
  | EmptyString => s
  end.

Definition TrimSpace (s : string) : string :=
  String.rev (trim_front true (String.rev (trim_front false s))).

(** ** Proxy selection ([buildProxyFunction]) *)

Record ProxyConfig : Type := {
  HTTPProxy : string;
  HTTPSProxy : string;
  NoProxy : string
}.

(** The fields of [url.URL] and [http.Request] that the code reads. *)
Record URL : Type := { Scheme : string; Host : string }.
Record Request : Type := { req_URL : URL }.

Definition loadProxyConfigFromEnv (cfg : Settings) : ProxyConfig :=
  {| HTTPProxy := HTTP_PROXY cfg;
     HTTPSProxy := HTTPS_PROXY cfg;
     NoProxy := NO_PROXY cfg |}.

(** The [for _, noProxy := range noProxyURLs] loop: [true] when it returns
    from inside. *)
Fixpoint noProxy_loop (noProxyURLs : list string) (reqHost : string) : bool :=
  match noProxyURLs with
  | [] => false
  | noProxy :: rest =>
      if String.eqb (TrimSpace noProxy) reqHost then true
      else noProxy_loop rest reqHost
  end.

Section Proxy.
(** [url.Parse], of the standard library. *)
Variable url_Parse : string -> option URL * option error.

Definition buildProxyFunction (proxyConfig : option ProxyConfig)
    (req : Request) : option URL * option error :=
  let bypass :=
    match proxyConfig with
    | Some pc =>
        if negb (String.eqb (NoProxy pc) "") then
          let noProxyURLs := Split (NoProxy pc) "," in
          let reqHost := Host (req_URL req) in
          noProxy_loop noProxyURLs reqHost
        else false
    | None => false
    end in
  if bypass then (None, None)
  else
    match proxyConfig with
    | Some pc =>
        if String.eqb (Scheme (req_URL req)) "https"
           && negb (String.eqb (HTTPSProxy pc) "")
        then url_Parse (HTTPSProxy pc)
        else if String.eqb (Scheme (req_URL req)) "http"
                && negb (String.eqb (HTTPProxy pc) "")
        then url_Parse (HTTPProxy pc)
        else (None, None)
    | None => (None, None)
    end.

(** The selection as the specification words it. The entries of a
    comma-separated list are the pieces between its commas, an empty list
    having none. *)
Definition comma_separated_entries (s : string) : list string :=
  if decide (s = "") then [] else Split s ",".

Definition host_in_no_proxy (no_proxy host : string) : Prop :=
  Exists (fun entry => TrimSpace entry = host) (comma_separated_entries no_proxy).

Definition proxy_selection (pc : ProxyConfig) (req : Request)
    : option URL * option error :=
  if decide (host_in_no_proxy (NoProxy pc) (Host (req_URL req))) then (None, None)
  else if decide (Scheme (req_URL req) = "https" /\ HTTPSProxy pc <> "")
  then url_Parse (HTTPSProxy pc)
  else if decide (Scheme (req_URL req) = "http" /\ HTTPProxy pc <> "")
  then url_Parse (HTTPProxy pc)
  else (None, None).
End Proxy.


(** ** Data of the GitHub client library *)

(** [github.ActionsVariable]; [Visibility] is a [*string]. *)
Record ActionsVariable : Type := {
  Name : string;
  Value : string;
  Visibility : option string
}.

(** [github.ActionsVariables]; [Variables] is a [[]*ActionsVariable]. *)
Record ActionsVariables : Type := {
  TotalCount : Z;
  Variables : list (option ActionsVariable)
}.

(** [github.Repository]; [Name] is a [*string]. *)
Record Repository : Type := { repo_Name : option string }.

Record Response : Type := { StatusCode : Z; NextPage : Z }.

(** [github.RepositoryListByOrgOptions] with its embedded [ListOptions]. *)
Record RepositoryListByOrgOptions : Type := { Page : Z; PerPage : Z }.

Record GitHubClientConfig : Type := { Token : string; Hostname : string }.

(** A configured [*github.Client]: what it was built from. *)
Record Client : Type := {
  client_config : GitHubClientConfig;
  client_proxy : ProxyConfig
}.

Definition defaultVariableVisibility : string := "private".
Definition EntityTypeOrg : string := "organization".
Definition EntityTypeRepository : string := "repository".

(** ** The environment *)

(** The remote calls made, and the rows handed to the CSV writer, in order. *)
Inductive Event : Type :=
| EvGetRepository (org repo : string)
| EvListByOrg (org : string) (opts : RepositoryListByOrgOptions)
| EvListOrgVariables (org : string)
| EvListRepoVariables (org repo : string)
| EvCreateOrgVariable (org : string) (variable : ActionsVariable)
| EvCreateRepoVariable (org repo : string) (variable : ActionsVariable)
| EvCsvWrite (row : list string).

(** What the program does not decide: the standard library, the client
    library and the remote side, over a world [W] that the remote calls
    change. *)
Record Env (W : Type) : Type := {
  url_Parse : string -> option URL * option error;
  (** the error of [client.WithEnterpriseURLs(hostname, hostname)] *)
  WithEnterpriseURLs : string -> option error;
  (** [client.Repositories.Get]: its error, or the response *)
  Repositories_Get : Client -> string -> string -> W -> (error + Response) * W;
  Repositories_ListByOrg :
    Client -> string -> RepositoryListByOrgOptions -> W ->
    (option (list (option Repository)) * option Response * option error) * W;
  Actions_ListOrgVariables :
    Client -> string -> W -> (option ActionsVariables * option error) * W;
  Actions_ListRepoVariables :
    Client -> string -> string -> W -> (option ActionsVariables * option error) * W;
  Actions_CreateOrgVariable :
    Client -> string -> ActionsVariable -> W -> option error * W;
  Actions_CreateRepoVariable :
    Client -> string -> string -> ActionsVariable -> W -> option error * W;
  (** the context of [createLongLivedContext], made in a given world *)
  longLivedContext : W -> GoContext;
  (** [os.Open] and [os.Create]: the error, if any *)
  os_Open : string -> option error;
  os_Create : string -> option error;
  (** [csv.NewReader(file).ReadAll()] on the file of that name *)
  csv_ReadAll : string -> error + list (list string);
  (** [writer.Write(row)] *)
  csv_Write : list string -> W -> option error * W
}.
Arguments url_Parse {W} _.
Arguments WithEnterpriseURLs {W} _.
Arguments Repositories_Get {W} _.
Arguments Repositories_ListByOrg {W} _.
Arguments Actions_ListOrgVariables {W} _.
Arguments Actions_ListRepoVariables {W} _.
Arguments Actions_CreateOrgVariable {W} _.
Arguments Actions_CreateRepoVariable {W} _.
Arguments longLivedContext {W} _.
Arguments os_Open {W} _.
Arguments os_Create {W} _.
Arguments csv_ReadAll {W} _.
Arguments csv_Write {W} _.

(** The world together with the trace of what was done to it. *)
Record State (W : Type) : Type := { world : W; trace : list Event }.
Arguments world {W} _.
Arguments trace {W} _.

Definition record_event {W A} (ev : Event) (r : A * W) (st : State W) : A * State W :=
  (fst r, {| world := snd r; trace := (trace st ++ [ev])%list |}).

(** ** Package [api] *)

Definition extractHostname (hostname : list string) : string :=
  match hostname with
  | h :: _ => h
  | [] => ""
  end.

(** Parses a GitHub Actions variable into a map representation. *)
Definition parseGitHubVariable (variable : option ActionsVariable) (scope : string)
    : option (gmap string string) :=
  match variable with
  | None => None
  | Some v =>
      if String.eqb (Name v) "" then None
      else
        let parsedVar : gmap string string :=
          <["Scope" := scope]> (<["Value" := Value v]> {["Name" := Name v]}) in
        match Visibility v with
        | Some vis => Some (<["Visibility" := vis]> parsedVar)
        | None => Some (<["Visibility" := defaultVariableVisibility]> parsedVar)
        end
  end.

(** The error of [addGitHubVariable] for a repository that is not there. *)
Definition repositoryNotFound (repo org : string) : error :=
  errorString ("repository " +:+ repo +:+ " does not exist in organization " +:+ org).

(** The names of a page: [if repo != nil && repo.Name != nil]. *)
Definition page_names (repos : list (option Repository)) : list string :=
  omap (fun repo : option Repository =>
          match repo with
          | Some r => repo_Name r
          | None => None
          end) repos.

Section Paginate.
Context {St : Type}.
Variable fetch :
  RepositoryListByOrgOptions -> St ->
  (option (list (option Repository)) * option Response * option error) * St.

(** The [for { ... }] loop of [listPaginatedRepositories]; it has no bound
    of its own, [None] is the loop still running when [fuel] is used up. *)
Fixpoint paginate_loop (fuel : nat) (opts : RepositoryListByOrgOptions)
    (allResources : list string) (s : St) : option ((error + list string) * St) :=
  match fuel with
  | O => None
  | S fuel' =>
      match fetch opts s with
      | (_, _, Some err, s') => Some (inl err, s')
      | (None, _, None, s') => Some (inl (errorString "no data returned"), s')
      | (Some repos, resp, None, s') =>
          let allResources := (allResources ++ page_names repos)%list in
          match resp with
          | None => Some (inr allResources, s')
          | Some r =>
              if NextPage r =? 0 then Some (inr allResources, s')
              else paginate_loop fuel'
                     {| Page := NextPage r; PerPage := PerPage opts |}
                     allResources s'
          end
      end
  end.

Definition listPaginatedRepositories (fuel : nat) (s : St)
    : option ((error + list string) * St) :=
  paginate_loop fuel {| Page := 0; PerPage := 100 |} [] s.
End Paginate.

Section Api.
Context {W : Type}.
Variable E : Env W.
Variable cfg : Settings.

(** The remote calls, recorded in the trace. *)
Definition call_Get (client : Client) (org repo : string) (st : State W) :=
  record_event (EvGetRepository org repo)
    (Repositories_Get E client org repo (world st)) st.

Definition call_ListByOrg (client : Client) (org : string)
    (opts : RepositoryListByOrgOptions) (st : State W) :=
  record_event (EvListByOrg org opts)
    (Repositories_ListByOrg E client org opts (world st)) st.

Definition call_ListOrgVariables (client : Client) (org : string) (st : State W) :=
  record_event (EvListOrgVariables org)
    (Actions_ListOrgVariables E client org (world st)) st.

Definition call_ListRepoVariables (client : Client) (org repo : string)
    (st : State W) :=
  record_event (EvListRepoVariables org repo)
    (Actions_ListRepoVariables E client org repo (world st)) st.

Definition call_CreateOrgVariable (client : Client) (org : string)
    (variable : ActionsVariable) (st : State W) :=
  record_event (EvCreateOrgVariable org variable)
    (Actions_CreateOrgVariable E client org variable (world st)) st.

Definition call_CreateRepoVariable (client : Client) (org repo : string)
    (variable : ActionsVariable) (st : State W) :=
  record_event (EvCreateRepoVariable org repo variable)
    (Actions_CreateRepoVariable E client org repo variable (world st)) st.

(** Creates a new GitHub client with optional proxy and enterprise
    hostname support. On a parse error [url.Parse] gives a nil URL, which
    the [%s] verb prints as [<nil>]. *)
Definition initializeGitHubClient (config : GitHubClientConfig) : error + Client :=
  if String.eqb (Token config) "" then
    inl (errorString "GitHub token is required")
  else
    let client :=
      {| client_config := config; client_proxy := loadProxyConfigFromEnv cfg |} in
    if negb (String.eqb (Hostname config) "") then
      match snd (url_Parse E (Hostname config)) with
      | Some err =>
          inl (Errorf_w "invalid hostname URL provided (<nil>): " err)
      | None =>
          match WithEnterpriseURLs E (Hostname config) with
          | Some err =>
              inl (Errorf_w ("failed to configure enterprise URLs for "
                             +:+ Hostname config +:+ ": ") err)
          | None => inr client
          end
      end
    else inr client.

(** Wrapper function to retry an operation with a default context. *)
Definition retryWithDefaultContext {St : Type} (w : W)
    (operation : St -> option error * St) (s : St) : RetryRun St :=
  retryWithExponentialBackoff cfg (longLivedContext E w) operation s.

(** Checks if a repository exists in a given organization. *)
Definition doesRepositoryExist (org repo token : string) (hostname : list string)
    (st : State W) : (bool * option error) * State W :=
  match initializeGitHubClient
          {| Token := token; Hostname := extractHostname hostname |} with
  | inl err =>
      ((false, Some (Errorf_w "failed to initialize GitHub client: " err)), st)
  | inr client =>
      match call_Get client org repo st with
      | (inl _, st') => ((false, None), st')
      | (inr resp, st') => ((StatusCode resp =? 200, None), st')
      end
  end.

(** Creates a variable in a GitHub organization or repository. *)
Definition addGitHubVariable (entityType org repo name value visibility token : string)
    (hostname : list string) (st : State W) : option error * State W :=
  if String.eqb org "" || String.eqb name "" then
    (Some (errorString "organization name and variable name are required"), st)
  else if String.eqb entityType EntityTypeRepository && String.eqb repo "" then
    (Some (errorString "repository name is required"), st)
  else
    let create (st : State W) : option error * State W :=
      match initializeGitHubClient
              {| Token := token; Hostname := extractHostname hostname |} with
      | inl err =>
          (Some (Errorf_w "failed to initialize GitHub client: " err), st)
      | inr client =>
          let visibility :=
            if String.eqb visibility "" then defaultVariableVisibility
            else visibility in
          let variable :=
            {| Name := name; Value := value; Visibility := Some visibility |} in
          let run :=
            retryWithDefaultContext (world st)
              (fun s : State W =>
                 if String.eqb entityType EntityTypeOrg
                 then call_CreateOrgVariable client org variable s
                 else call_CreateRepoVariable client org repo variable s) st in
          match run_err run with
          | Some err =>
              (Some (Errorf_w ("failed to create " +:+ entityType +:+ " variable "
                               +:+ name +:+ ": ") err), run_state run)
          | None => (None, run_state run)
          end
      end in
    if String.eqb entityType EntityTypeRepository then
      match doesRepositoryExist org repo token hostname st with
      | ((_, Some err), st1) =>
          (Some (Errorf_w "failed to check repository existence: " err), st1)
      | ((false, None), st1) => (Some (repositoryNotFound repo org), st1)
      | ((true, None), st1) => create st1
      end
    else create st.

Definition AddOrgVariable (org name value visibility token : string)
    (hostname : list string) (st : State W) : option error * State W :=
  addGitHubVariable EntityTypeOrg org "" name value visibility token hostname st.

Definition AddRepoVariable (org repo name value visibility token : string)
    (hostname : list string) (st : State W) : option error * State W :=
  addGitHubVariable EntityTypeRepository org repo name value visibility token
    hostname st.

(** Retrieves variables from a GitHub organization or repository. The
    closure given to the retry policy assigns the captured [variables] at
    every call. *)
Definition fetchGitHubVariables (entityType org repo token : string)
    (hostname : list string) (st : State W)
    : (error + list (gmap string string)) * State W :=
  if String.eqb org "" then
    (inl (errorString "organization name is required"), st)
  else if String.eqb entityType EntityTypeRepository && String.eqb repo "" then
    (inl (errorString "repository name is required"), st)
  else
    match initializeGitHubClient
            {| Token := token; Hostname := extractHostname hostname |} with
    | inl err =>
        (inl (Errorf_w "failed to initialize GitHub client: " err), st)
    | inr client =>
        let run :=
          retryWithDefaultContext (world st)
            (fun s : State W * option ActionsVariables =>
               let r :=
                 if String.eqb entityType EntityTypeOrg
                 then call_ListOrgVariables client org (fst s)
                 else call_ListRepoVariables client org repo (fst s) in
               (snd (fst r), (snd r, fst (fst r))))
            (st, None) in
        let st' := fst (run_state run) in
        match run_err run with
        | Some err =>
            (inl (Errorf_w ("failed to fetch " +:+ entityType +:+ " variables: ") err),
             st')
        | None =>
            match snd (run_state run) with
            | None =>
                (inl (errorString ("no variables data returned for "
                                   +:+ entityType +:+ " " +:+ org)), st')
            | Some variables =>
                let scope :=
                  if String.eqb entityType EntityTypeRepository then repo
                  else entityType in
                (inr (omap (fun variable => parseGitHubVariable variable scope)
                           (Variables variables)), st')
            end
        end
    end.

Definition FetchOrgVariables (org token : string) (hostname : list string)
    (st : State W) :=
  fetchGitHubVariables EntityTypeOrg org "" token hostname st.

Definition FetchRepoVariables (org repo token : string) (hostname : list string)
    (st : State W) :=
  fetchGitHubVariables EntityTypeRepository org repo token hostname st.

(** Retrieves a list of repositories for a given organization. *)
Definition FetchAllRepositories (fuel : nat) (org token : string)
    (hostname : list string) (st : State W)
    : option ((error + list string) * State W) :=
  match initializeGitHubClient
          {| Token := token; Hostname := extractHostname hostname |} with
  | inl err =>
      Some (inl (Errorf_w "failed to initialize GitHub client: " err), st)
  | inr client =>
      listPaginatedRepositories
        (fun opts s => call_ListByOrg client org opts s) fuel st
  end.
End Api.

(** ** Packages [sync] and [export] *)

(** How a command ends: it returns, exits through [os.Exit], or panics. *)
Inductive Termination : Type :=
| Returned (err : option error)
| Exited (code : Z)
| Panicked (msg : string).

(** The counters of [SyncVariables]; they count records and stay far below
    2^63. *)
Record Stats : Type := { total : Z; succeeded : Z; failed : Z; skipped : Z }.

Definition incr_total (s : Stats) : Stats :=
  {| total := total s + 1; succeeded := succeeded s; failed := failed s;
     skipped := skipped s |}.
Definition incr_succeeded (s : Stats) : Stats :=
  {| total := total s; succeeded := succeeded s + 1; failed := failed s;
     skipped := skipped s |}.
Definition incr_failed (s : Stats) : Stats :=
  {| total := total s; succeeded := succeeded s; failed := failed s + 1;
     skipped := skipped s |}.
Definition incr_skipped (s : Stats) : Stats :=
  {| total := total s; succeeded := succeeded s; failed := failed s;
     skipped := skipped s + 1 |}.

Section Commands.
Context {W : Type}.
Variable E : Env W.
Variable cfg : Settings.

(** The body of the loop of [SyncVariables] over the records. *)
Definition sync_record (targetOrg targetToken hostname : string) (stats : Stats)
    (record : list string) (st : State W) : Stats * State W :=
  let stats := incr_total stats in
  if Z.of_nat (length record) <? 4 then (incr_skipped stats, st)
  else
    let variableName := nth 0 record "" in
    let variableValue := nth 1 record "" in
    let scope := nth 2 record "" in
    let visibility := nth 3 record "" in
    if String.eqb scope "organization" then
      match AddOrgVariable E cfg targetOrg variableName variableValue visibility
              targetToken [hostname] st with
      | (Some _, st') => (incr_failed stats, st')
      | (None, st') => (incr_succeeded stats, st')
      end
    else
      match AddRepoVariable E cfg targetOrg scope variableName variableValue
              visibility targetToken [hostname] st with
      | (Some err, st') =>
          if String.eqb (Error err)
               ("repository " +:+ scope +:+ " does not exist in organization "
                +:+ targetOrg)
          then (incr_skipped stats, st')
          else (incr_failed stats, st')
      | (None, st') => (incr_succeeded stats, st')
      end.

Fixpoint sync_loop (targetOrg targetToken hostname : string)
    (records : list (list string)) (stats : Stats) (st : State W)
    : Stats * State W :=
  match records with
  | [] => (stats, st)
  | record :: rest =>
      let r := sync_record targetOrg targetToken hostname stats record st in
      sync_loop targetOrg targetToken hostname rest (fst r) (snd r)
  end.

(** [SyncVariables]: how it ends, the counters of its summary when it
    gets that far, and the state it leaves. [records[1:]] panics on an
    empty slice. *)
Definition SyncVariables (st : State W) : Termination * option Stats * State W :=
  let inputFile := setting_file cfg in
  let hostname := target_hostname cfg in
  let targetOrg := target_organization cfg in
  let targetToken := target_token cfg in
  if String.eqb inputFile "" || String.eqb targetOrg "" || String.eqb targetToken ""
  then
    (Returned (Some (errorString
       "missing required parameters: mapping file, target organization, or target token")),
     None, st)
  else
    match os_Open E inputFile with
    | Some err =>
        (Returned (Some (errorString
           ("cannot open file " +:+ inputFile +:+ ": " +:+ Error err))), None, st)
    | None =>
        match csv_ReadAll E inputFile with
        | inl err =>
            (Returned (Some (errorString
               ("cannot read file " +:+ inputFile +:+ ": " +:+ Error err))),
             None, st)
        | inr records =>
            match records with
            | [] =>
                (Panicked "runtime error: slice bounds out of range [1:0]",
                 None, st)
            | _ :: rest =>
                let r :=
                  sync_loop targetOrg targetToken hostname rest
                    {| total := 0; succeeded := 0; failed := 0; skipped := 0 |}
                    st in
                if failed (fst r) >? 0 then (Exited 1, Some (fst r), snd r)
                else (Returned None, Some (fst r), snd r)
            end
        end
    end.

Definition call_csv_Write (row : list string) (st : State W) :=
  record_event (EvCsvWrite row) (csv_Write E row (world st)) st.

(** The loop of [ExportVariables] over the repositories. *)
Fixpoint export_repos_loop (organization token hostname : string)
    (repos : list string) (allVariables : list (gmap string string))
    (successful failed : Z) (st : State W)
    : list (gmap string string) * Z * Z * State W :=
  match repos with
  | [] => (allVariables, successful, failed, st)
  | repo :: rest =>
      match FetchRepoVariables E cfg organization repo token [hostname] st with
      | (inl _, st') =>
          export_repos_loop organization token hostname rest allVariables
            successful (failed + 1) st'
      | (inr repoVariables, st') =>
          export_repos_loop organization token hostname rest
            (allVariables ++ repoVariables)%list (successful + 1) failed st'
      end
  end.

(** The loop of [ExportVariables] that writes the variables. *)
Fixpoint export_write_loop (allVariables : list (gmap string string))
    (variablesWritten : Z) (st : State W) : (error + Z) * State W :=
  match allVariables with
  | [] => (inr variablesWritten, st)
  | variable :: rest =>
      match variable !! "Name" with
      | Some name =>
          if negb (String.eqb name "") then
            let value := default "" (variable !! "Value") in
            let scope := default "" (variable !! "Scope") in
            let visibility := default "" (variable !! "Visibility") in
            match call_csv_Write [name; value; scope; visibility] st with
            | (Some err, st') =>
                (inl (Errorf_w "failed to write variable to CSV: " err), st')
            | (None, st') => export_write_loop rest (variablesWritten + 1) st'
            end
          else export_write_loop rest variablesWritten st
      | None => export_write_loop rest variablesWritten st
      end
  end.

(** [ExportVariables]; [None] when the listing of the repositories is
    still running after [fuel] pages. *)
Definition ExportVariables (fuel : nat) (st : State W)
    : option (Termination * State W) :=
  let organization := source_organization cfg in
  let token := source_token cfg in
  let hostname := source_hostname cfg in
  if String.eqb organization "" || String.eqb token "" then
    Some (Returned (Some (errorString
      "missing required environment variables: GHMV_SOURCE_ORGANIZATION, GHMV_SOURCE_TOKEN, or VARIABLES_CSV_FILE")),
      st)
  else
    let org := FetchOrgVariables E cfg organization token [hostname] st in
    let allVariables :=
      match fst org with
      | inl _ => []
      | inr orgVariables => orgVariables
      end in
    match FetchAllRepositories E cfg fuel organization token [hostname] (snd org) with
    | None => None
    | Some (inl err, st2) =>
        Some (Returned (Some (Errorf_w "failed to fetch repositories: " err)), st2)
    | Some (inr repos, st2) =>
        match export_repos_loop organization token hostname repos allVariables
                0 0 st2 with
        | (allVariables, _, failed, st3) =>
            if Z.of_nat (length allVariables) =? 0 then Some (Returned None, st3)
            else
              let outputFile := organization +:+ "_variables.csv" in
              match os_Create E outputFile with
              | Some err =>
                  Some (Returned (Some (Errorf_w
                          ("cannot create file " +:+ outputFile +:+ ": ") err)), st3)
              | None =>
                  match call_csv_Write ["Name"; "Value"; "Scope"; "Visibility"] st3 with
                  | (Some err, st4) =>
                      Some (Returned (Some (Errorf_w "failed to write CSV header: " err)),
                            st4)
                  | (None, st4) =>
                      match export_write_loop allVariables 0 st4 with
                      | (inl err, st5) => Some (Returned (Some err), st5)
                      | (inr _, st5) =>
                          if failed >? 0 then Some (Exited 1, st5)
                          else Some (Returned None, st5)
                      end
                  end
              end
        end
    end.
End Commands.

(** ** Package [cmd]: the endpoint of the connection *)

(** [strings.HasPrefix], [strings.TrimPrefix], [strings.HasSuffix] and
    [strings.TrimSuffix]. *)
Definition HasPrefix (s prefix : string) : bool :=
  (String.length prefix <=? String.length s)%nat
  && String.eqb (String.substring 0 (String.length prefix) s) prefix.

Definition TrimPrefix (s prefix : string) : string :=
  if HasPrefix s prefix
  then String.substring (String.length prefix)
         (String.length s - String.length prefix) s
  else s.

Definition HasSuffix (s suffix : string) : bool :=
  (String.length suffix <=? String.length s)%nat
  && String.eqb (String.substring (String.length s - String.length suffix)
                   (String.length suffix) s) suffix.

Definition TrimSuffix (s suffix : string) : string :=
  if HasSuffix s suffix
  then String.substring 0 (String.length s - String.length suffix) s
  else s.

(** [viper.GetString] and [viper.Set] on the settings of text that the model
    holds, under the keys as the code spells them; another key has no value
    and setting it changes nothing here. *)
Definition viper_GetString (cfg : Settings) (key : string) : string :=
  if String.eqb key "HTTP_PROXY" then HTTP_PROXY cfg
  else if String.eqb key "HTTPS_PROXY" then HTTPS_PROXY cfg
  else if String.eqb key "NO_PROXY" then NO_PROXY cfg
  else if String.eqb key "source-hostname" then source_hostname cfg
  else if String.eqb key "source-organization" then source_organization cfg
  else if String.eqb key "source-token" then source_token cfg
  else if String.eqb key "file" then setting_file cfg
  else if String.eqb key "target-hostname" then target_hostname cfg
  else if String.eqb key "target-organization" then target_organization cfg
  else if String.eqb key "target-token" then target_token cfg
  else "".

Definition viper_Set (cfg : Settings) (key value : string) : Settings :=
  let pick (name current : string) := if String.eqb key name then value else current in
  {| RETRY_MAX := RETRY_MAX cfg;
     RETRY_DELAY := RETRY_DELAY cfg;
     HTTP_PROXY := pick "HTTP_PROXY" (HTTP_PROXY cfg);
     HTTPS_PROXY := pick "HTTPS_PROXY" (HTTPS_PROXY cfg);
     NO_PROXY := pick "NO_PROXY" (NO_PROXY cfg);
     source_hostname := pick "source-hostname" (source_hostname cfg);
     source_organization := pick "source-organization" (source_organization cfg);
     source_token := pick "source-token" (source_token cfg);
     setting_file := pick "file" (setting_file cfg);
     target_hostname := pick "target-hostname" (target_hostname cfg);
     target_organization := pick "target-organization" (target_organization cfg);
     target_token := pick "target-token" (target_token cfg) |}.

(** [getNormalizedEndpoint]: the endpoint returned and the settings after
    the call. *)
Definition getNormalizedEndpoint (key : string) (cfg : Settings) : string * Settings :=
  let hostname := viper_GetString cfg key in
  if negb (String.eqb hostname "") then
    let hostname := TrimPrefix hostname "http://" in
    let hostname := TrimPrefix hostname "https://" in
    let hostname := TrimSuffix hostname "/api/v3" in
    let hostname := TrimSuffix hostname "/" in
    let hostname := "https://" +:+ hostname +:+ "/api/v3" in
    (hostname, viper_Set cfg key hostname)
  else (hostname, cfg).

(** The settings after [ShowConnectionStatus], which prints the endpoint
    and the state of the proxy. *)
Definition ShowConnectionStatus (actionType : string) (cfg : Settings) : Settings :=
  let endpoint :=
    if String.eqb actionType "export" then "source-hostname"
    else if String.eqb actionType "sync" then "target-hostname"
    else "" in
  snd (getNormalizedEndpoint endpoint cfg).

(** A host name: not empty and without a slash. *)
Definition bare_host (h : string) : Prop :=
  h <> "" /\ ~ In "/"%char (String.list_ascii_of_string h).

(** ** Statements of the specification *)

(** A record with a non-empty [Name]. *)
Definition named (record : gmap string string) : Prop :=
  exists name, record !! "Name" = Some name /\ name <> "".

(** The rows handed to the CSV writer among the events [evs]. *)
Definition csv_rows (evs : list Event) : list (list string) :=
  omap (fun ev => match ev with
                  | EvCsvWrite row => Some row
                  | _ => None
                  end) evs.

(** A row whose first column, the name, is not empty. *)
Definition named_row (row : list string) : Prop :=
  exists name rest, row = name :: rest /\ name <> "".

(** From [st] to [st'] events were added, none of them a row handed to the
    CSV writer. *)
Definition writes_no_row {W : Type} (st st' : State W) : Prop :=
  exists evs, trace st' = (trace st ++ evs)%list /\ csv_rows evs = [].

(** The walk over the pages that the specification describes, for a remote
    side [fetch]: pages of 100 items are asked for, the first one first and
    each next one at the [NextPage] cursor of the response before it, until a
    response reports no next page, or fails, or has a nil payload.
    [cursor_walk fetch page s pages outcome s'] holds when the walk from page
    [page] in state [s] gets the payloads [pages] in this order and ends in
    state [s'], on the error [outcome] if there is one. *)
Inductive cursor_walk {St : Type}
    (fetch : RepositoryListByOrgOptions -> St ->
             (option (list (option Repository)) * option Response * option error) * St)
    : Z -> St -> list (list (option Repository)) -> option error -> St -> Prop :=
| walk_fails page s repos resp err s' :
    fetch {| Page := page; PerPage := 100 |} s = (repos, resp, Some err, s') ->
    cursor_walk fetch page s [] (Some err) s'
| walk_nil_payload page s resp s' :
    fetch {| Page := page; PerPage := 100 |} s = (None, resp, None, s') ->
    cursor_walk fetch page s [] (Some (errorString "no data returned")) s'
| walk_last_page page s repos resp s' :
    fetch {| Page := page; PerPage := 100 |} s = (Some repos, resp, None, s') ->
    (resp = None \/ exists r, resp = Some r /\ NextPage r = 0) ->
    cursor_walk fetch page s [repos] None s'
| walk_next_page page s repos r s' pages outcome s'' :
    fetch {| Page := page; PerPage := 100 |} s = (Some repos, Some r, None, s') ->
    NextPage r <> 0 ->
    cursor_walk fetch (NextPage r) s' pages outcome s'' ->
    cursor_walk fetch page s (repos :: pages) outcome s''.

(** ** Concrete settings, contexts and operations *)

Definition settings_of (retry_max : Z) (retry_delay : option Z) : Settings :=
  {| RETRY_MAX := retry_max; RETRY_DELAY := retry_delay;
     HTTP_PROXY := ""; HTTPS_PROXY := ""; NO_PROXY := "";
     source_hostname := ""; source_organization := "acme"; source_token := "t0ken";
     setting_file := "acme_variables.csv"; target_hostname := "";
     target_organization := "acme"; target_token := "t0ken" |}.

Definition sync_settings (file : string) : Settings :=
  {| RETRY_MAX := 3; RETRY_DELAY := Some time_Second;
     HTTP_PROXY := ""; HTTPS_PROXY := ""; NO_PROXY := "";
     source_hostname := ""; source_organization := "acme"; source_token := "t0ken";
     setting_file := file; target_hostname := "";
     target_organization := "acme"; target_token := "t0ken" |}.

(** [context.DeadlineExceeded] *)
Definition DeadlineExceeded : error := errorString "context deadline exceeded".

(** A context that is never done. *)
Definition ctx_background : GoContext := fun _ _ => None.

(** The context of [createLongLivedContext], for attempts that take no
    time and waits that stay below five minutes when added up: a wait of five
    minutes or more is cut by the deadline. *)
Definition ctx_five_minutes : GoContext :=
  fun _ waitTime => if 300 * time_Second <=? waitTime then Some DeadlineExceeded else None.

(** A context whose deadline passes during the wait that follows attempt
    [a]. *)
Definition ctx_deadline_during (a : Z) : GoContext :=
  fun attempt _ => if attempt =? a then Some DeadlineExceeded else None.

(** An operation over a call counter that fails at its first [k] calls. *)
Definition fails_first (k : nat) (calls : nat) : option error * nat :=
  (if (calls <? k)%nat then Some (errorString "transient failure") else None,
   S calls).

(** An operation that fails at every call. *)
Definition fails_forever (calls : nat) : option error * nat :=
  (Some (errorString ("failure " +:+ Itoa (Z.of_nat (S calls)))), S calls).

(** A remote side over a counter of the calls it has served. Repository
    lookups fail while fewer than [outage] calls have been served; the
    repository [missing-repo] does not exist; the repositories are listed on
    two pages; the organization variable [REJECTED] cannot be created. *)
Definition demo_variables : ActionsVariables :=
  {| TotalCount := 4;
     Variables :=
       [Some {| Name := "VAR1"; Value := "val1"; Visibility := Some "all" |};
        None;
        Some {| Name := ""; Value := "orphan"; Visibility := None |};
        Some {| Name := "VAR2"; Value := "val2"; Visibility := None |}] |}.

Definition demo_csv : list (list string) :=
  [["Name"; "Value"; "Scope"; "Visibility"];
   ["VAR1"; "val1"; "organization"; "all"];
   ["VAR2"; "val2"; "repoA"; "private"]].

Definition demo_env (outage : nat) : Env nat :=
  {| url_Parse := fun raw => (Some {| Scheme := "https"; Host := raw |}, None);
     WithEnterpriseURLs := fun _ => None;
     Repositories_Get := fun _ _ repo w =>
       (if (w <? outage)%nat then inl (errorString "502 Bad Gateway")
        else if String.eqb repo "missing-repo" then inl (errorString "404 Not Found")
        else inr {| StatusCode := 200; NextPage := 0 |},
        S w);
     Repositories_ListByOrg := fun _ _ opts w =>
       (if (Page opts =? 0) && (PerPage opts =? 100) then
          (Some [Some {| repo_Name := Some "repoA" |}; None],
           Some {| StatusCode := 200; NextPage := 2 |}, None)
        else if (Page opts =? 2) && (PerPage opts =? 100) then
          (Some [Some {| repo_Name := None |}; Some {| repo_Name := Some "repoB" |}],
           Some {| StatusCode := 200; NextPage := 0 |}, None)
        else (None, None, None),
        S w);
     Actions_ListOrgVariables := fun _ _ w => ((Some demo_variables, None), S w);
     Actions_ListRepoVariables := fun _ _ _ w =>
       ((Some {| TotalCount := 0; Variables := [] |}, None), S w);
     Actions_CreateOrgVariable := fun _ _ variable w =>
       (if String.eqb (Name variable) "REJECTED"
        then Some (errorString "409 Conflict") else None,
        S w);
     Actions_CreateRepoVariable := fun _ _ _ _ w => (None, S w);
     longLivedContext := fun _ => ctx_background;
     os_Open := fun _ => None;
     os_Create := fun _ => None;
     csv_ReadAll := fun name =>
       if String.eqb name "empty.csv" then inr [] else inr demo_csv;
     csv_Write := fun _ w => (None, S w) |}.

Definition demo_state : State nat := {| world := O; trace := [] |}.

(** The demonstration remote during an outage of the variables API: every
    call that lists variables fails. *)
Definition outage_env : Env nat :=
  {| url_Parse := url_Parse (demo_env 0);
     WithEnterpriseURLs := WithEnterpriseURLs (demo_env 0);
     Repositories_Get := Repositories_Get (demo_env 0);
     Repositories_ListByOrg := Repositories_ListByOrg (demo_env 0);
     Actions_ListOrgVariables := fun _ _ w =>
       ((None, Some (errorString "503 Service Unavailable")), S w);
     Actions_ListRepoVariables := fun _ _ _ w =>
       ((None, Some (errorString "503 Service Unavailable")), S w);
     Actions_CreateOrgVariable := Actions_CreateOrgVariable (demo_env 0);
     Actions_CreateRepoVariable := Actions_CreateRepoVariable (demo_env 0);
     longLivedContext := longLivedContext (demo_env 0);
     os_Open := os_Open (demo_env 0);
     os_Create := os_Create (demo_env 0);
     csv_ReadAll := csv_ReadAll (demo_env 0);
     csv_Write := csv_Write (demo_env 0) |}.

(** The demonstration remote when the creation of an organization variable
    fails at every call, each time with another error, which tells the number
    of the call. *)
Definition failing_create_env : Env nat :=
  {| url_Parse := url_Parse (demo_env 0);
     WithEnterpriseURLs := WithEnterpriseURLs (demo_env 0);
     Repositories_Get := Repositories_Get (demo_env 0);
     Repositories_ListByOrg := Repositories_ListByOrg (demo_env 0);
     Actions_ListOrgVariables := Actions_ListOrgVariables (demo_env 0);
     Actions_ListRepoVariables := Actions_ListRepoVariables (demo_env 0);
     Actions_CreateOrgVariable := fun _ _ _ w =>
       (Some (errorString ("500 at call " +:+ Itoa (Z.of_nat (S w)))), S w);
     Actions_CreateRepoVariable := Actions_CreateRepoVariable (demo_env 0);
     longLivedContext := longLivedContext (demo_env 0);
     os_Open := os_Open (demo_env 0);
     os_Create := os_Create (demo_env 0);
     csv_ReadAll := csv_ReadAll (demo_env 0);
     csv_Write := csv_Write (demo_env 0) |}.

(** The demonstration remote for a sync that reads, whatever the name of the
    file, the header and the rows [rows]. *)
Definition reading_env (rows : list (list string)) : Env nat :=
  {| url_Parse := url_Parse (demo_env 0);
     WithEnterpriseURLs := WithEnterpriseURLs (demo_env 0);
     Repositories_Get := Repositories_Get (demo_env 0);
     Repositories_ListByOrg := Repositories_ListByOrg (demo_env 0);
     Actions_ListOrgVariables := Actions_ListOrgVariables (demo_env 0);
     Actions_ListRepoVariables := Actions_ListRepoVariables (demo_env 0);
     Actions_CreateOrgVariable := Actions_CreateOrgVariable (demo_env 0);
     Actions_CreateRepoVariable := Actions_CreateRepoVariable (demo_env 0);
     longLivedContext := longLivedContext (demo_env 0);
     os_Open := os_Open (demo_env 0);
     os_Create := os_Create (demo_env 0);
     csv_ReadAll := fun _ => inr (["Name"; "Value"; "Scope"; "Visibility"] :: rows);
     csv_Write := csv_Write (demo_env 0) |}.

(** A listing whose every response names a next page. *)
Definition endless_listing (opts : RepositoryListByOrgOptions) (w : nat)
    : (option (list (option Repository)) * option Response * option error) * nat :=
  ((Some [Some {| repo_Name := Some "repo" |}],
    Some {| StatusCode := 200; NextPage := Z.abs (Page opts) + 1 |}, None), S w).

(** * Properties *)

(** ** 64-bit arithmetic *)

Lemma wrap64_id (z : Z) : int64_range z -> wrap64 z = z.
Proof.
  unfold int64_range, wrap64. intros Hz.
  rewrite Z.mod_small; lia.
Qed.

Lemma wrap64_mul_wrap (a b : Z) : wrap64 (a * wrap64 b) = wrap64 (a * b).
Proof.
  unfold wrap64. f_equal.
  rewrite (Z.mod_eq (b + 2 ^ 63) (2 ^ 64)) by lia.
  replace (a * (b + 2 ^ 63 - 2 ^ 64 * ((b + 2 ^ 63) / 2 ^ 64) - 2 ^ 63) + 2 ^ 63)
    with (a * b + 2 ^ 63 + (- (a * ((b + 2 ^ 63) / 2 ^ 64))) * 2 ^ 64) by ring.
  apply Z_mod_plus_full.
Qed.

(** As long as the product fits in 64 bits, the wait computed by the code
    is the exact product. *)
Lemma waitTime_of_exact (d attempt : Z) :
  1 <= attempt -> int64_range (d * 2 ^ (attempt - 1)) ->
  waitTime_of d attempt = d * 2 ^ (attempt - 1).
Proof.
  intros Ha Hr. unfold waitTime_of, mul64, shl64.
  destruct (Z.eq_dec d 0) as [-> | Hd].
  - rewrite !Z.mul_0_l. reflexivity.
  - assert (Hlt : attempt - 1 < 64).
    { destruct (Z_lt_ge_dec (attempt - 1) 64) as [? | Hge]; [assumption | exfalso].
      assert (2 ^ 64 <= 2 ^ (attempt - 1)) by (apply Z.pow_le_mono_r; lia).
      unfold int64_range in Hr. nia. }
    unfold to_uint. rewrite Z.mod_small by lia.
    rewrite Z.shiftl_1_l, wrap64_mul_wrap. apply wrap64_id, Hr.
Qed.

(** ** The retry loop *)

Section RetryFacts.
Context {St : Type}.
Variable cfg : Settings.
Variable ctx : GoContext.
Variable operation : St -> option error * St.

Lemma maxRetries_of_pos : 1 <= maxRetries_of cfg.
Proof. unfold maxRetries_of. destruct (Z.leb_spec (RETRY_MAX cfg) 0); lia. Qed.

Lemma outcome_at_S (s : St) (i : nat) :
  outcome_at operation s (S i) = outcome_at operation (snd (operation s)) i.
Proof. reflexivity. Qed.

(** [j] failing attempts, each followed by a backoff wait that runs to
    its end, take the loop [j] iterations further. *)
Lemma retry_loop_failures (j : nat) :
  forall remaining attempt lastErr waits calls s,
    (j <= remaining)%nat ->
    attempt + Z.of_nat j <= maxRetries_of cfg ->
    (forall i, (i < j)%nat -> outcome_at operation s i <> None) ->
    (forall i, (i < j)%nat ->
       ctx (attempt + Z.of_nat i)
           (waitTime_of (retryDelay_of cfg) (attempt + Z.of_nat i)) = None) ->
    retry_loop cfg ctx operation remaining attempt lastErr waits calls s =
    retry_loop cfg ctx operation (remaining - j) (attempt + Z.of_nat j)
      (match j with
       | O => lastErr
       | S j' => outcome_at operation s j'
       end)
      (waits ++ map (fun i => waitTime_of (retryDelay_of cfg) (attempt + Z.of_nat i))
                    (seq 0 j))%list
      (calls + j)%nat (state_at operation s j).
Proof.
  induction j as [| j IH]; intros remaining attempt lastErr waits calls s Hj Hmax Hfail Hctx.
  - cbn [seq map state_at]. rewrite Nat.sub_0_r, Z.add_0_r, app_nil_r, Nat.add_0_r.
    reflexivity.
  - destruct remaining as [| remaining]; [lia |].
    pose proof (Hfail O ltac:(lia)) as H0.
    pose proof (Hctx O ltac:(lia)) as Hc0.
    unfold outcome_at in H0. cbn [state_at] in H0.
    cbn [retry_loop].
    destruct (operation s) as [[e |] s'] eqn:Hop; [| cbn in H0; congruence].
    destruct (Z.ltb_spec attempt (maxRetries_of cfg)) as [_ | ?]; [| lia].
    cbn zeta. rewrite Z.add_0_r in Hc0. rewrite Hc0.
    rewrite (IH remaining (attempt + 1) (Some e)).
    + cbn [Nat.sub seq map state_at]. rewrite Hop. cbn [snd].
      f_equal.
      * lia.
      * destruct j as [| j']; [| rewrite outcome_at_S, Hop; reflexivity].
        unfold outcome_at. cbn [state_at]. rewrite Hop. reflexivity.
      * rewrite <- app_assoc. cbn [app]. rewrite Z.add_0_r.
        do 2 f_equal. rewrite <- seq_shift, map_map.
        apply map_ext. intros i. f_equal. lia.
      * lia.
    + lia.
    + lia.
    + intros i Hi. specialize (Hfail (S i) ltac:(lia)).
      rewrite outcome_at_S, Hop in Hfail. exact Hfail.
    + intros i Hi. specialize (Hctx (S i) ltac:(lia)).
      replace (attempt + 1 + Z.of_nat i) with (attempt + Z.of_nat (S i)) by lia.
      exact Hctx.
Qed.
End RetryFacts.

(** ** The retry policy (C1, C2, C3) *)

Lemma state_at_fails_first (k i calls : nat) :
  state_at (fails_first k) calls i = (calls + i)%nat.
Proof.
  revert calls. induction i as [| i IH]; intros calls; cbn [state_at].
  - lia.
  - rewrite IH. cbn. lia.
Qed.

Lemma fails_first_fails_then_succeeds (k : nat) :
  fails_then_succeeds (fails_first k) O k.
Proof.
  split.
  - intros i Hi. unfold outcome_at. rewrite state_at_fails_first.
    unfold fails_first. cbn [fst Nat.add].
    destruct (Nat.ltb_spec i k); [discriminate | lia].
  - unfold outcome_at. rewrite state_at_fails_first.
    unfold fails_first. cbn [fst Nat.add].
    destruct (Nat.ltb_spec k k); [lia | reflexivity].
Qed.

Lemma fails_forever_always_fails (calls : nat) : always_fails fails_forever calls.
Proof. intros i. unfold outcome_at. cbn. discriminate. Qed.

(** C1, as amended: when the operation fails exactly [k] times and then
    succeeds, with [k < MaxAttempts], when moreover the context is not done
    during the [k] backoff waits and the products [BaseDelay * 2^i] fit in a
    64-bit duration, the policy returns success after exactly [k+1] attempts,
    and the waits between the attempts are [BaseDelay * 2^0], ...,
    [BaseDelay * 2^(k-1)]. *)
Theorem retry_succeeds_after_failures {St : Type} (cfg : Settings) (ctx : GoContext)
    (operation : St -> option error * St) (s : St) (k : nat) :
  Z.of_nat k < maxRetries_of cfg ->
  fails_then_succeeds operation s k ->
  (forall i d, (i < k)%nat -> ctx (Z.of_nat i + 1) d = None) ->
  (forall i, (i < k)%nat -> int64_range (retryDelay_of cfg * 2 ^ Z.of_nat i)) ->
  let run := retryWithExponentialBackoff cfg ctx operation s in
  run_err run = None /\
  run_attempts run = S k /\
  run_waits run = map (fun i => retryDelay_of cfg * 2 ^ Z.of_nat i) (seq 0 k).
Proof.
  intros Hk [Hfail Hok] Hctx Hrange run. subst run.
  unfold retryWithExponentialBackoff.
  rewrite (retry_loop_failures cfg ctx operation k); [| lia | lia | exact Hfail |].
  - destruct (Z.to_nat (maxRetries_of cfg) - k)%nat as [| r] eqn:Hr; [lia |].
    cbn [retry_loop]. unfold outcome_at in Hok.
    destruct (operation (state_at operation s k)) as [[e |] s'];
      [cbn in Hok; discriminate |].
    cbn [run_err run_attempts run_waits app]. repeat split.
    apply map_ext_in. intros i Hi. apply in_seq in Hi.
    rewrite waitTime_of_exact.
    + do 2 f_equal. lia.
    + lia.
    + replace (1 + Z.of_nat i - 1) with (Z.of_nat i) by lia. apply Hrange. lia.
  - intros i Hi. replace (1 + Z.of_nat i) with (Z.of_nat i + 1) by lia.
    apply Hctx, Hi.
Qed.

Lemma retry_succeeds_after_failures_witness :
  let run :=
    retryWithExponentialBackoff (settings_of 3 (Some time_Second)) ctx_background
      (fails_first 2) O in
  run_err run = None /\
  run_attempts run = 3%nat /\
  run_waits run = [1000000000; 2000000000].
Proof.
  refine (retry_succeeds_after_failures (settings_of 3 (Some time_Second))
            ctx_background (fails_first 2) O 2 _ _ _ _).
  - reflexivity.
  - apply fails_first_fails_then_succeeds.
  - intros i d _. reflexivity.
  - intros i Hi. unfold int64_range.
    destruct i as [| [| i]]; [vm_compute; split; [discriminate | reflexivity] .. | lia].
Defined.

(** C1, as stated, fails on the code in two ways, both under the five-minute
    deadline of [retryWithDefaultContext]. With [RETRY_MAX=3] and
    [RETRY_DELAY=10m], an operation that fails once and then succeeds: the
    deadline passes during the first backoff wait, and the policy returns the
    cancellation error after one attempt. With [RETRY_MAX=66] and
    [RETRY_DELAY=-1ns], an operation that fails 65 times and then succeeds:
    the policy returns success after 66 attempts, but its 65th wait is 0 and
    not [-1 * 2^64], the shift and the product being taken in 64 bits. *)
Lemma retry_success_claim_counterexample :
  (let cfg := settings_of 3 (Some (600 * time_Second)) in
   let run := retryWithExponentialBackoff cfg ctx_five_minutes (fails_first 1) O in
   (1 < maxRetries_of cfg /\ fails_then_succeeds (fails_first 1) O 1) /\
   run_err run = Some (Errorf_w "operation cancelled: " DeadlineExceeded) /\
   run_attempts run = 1%nat)
  /\
  (let cfg := settings_of 66 (Some (-1)) in
   let run := retryWithExponentialBackoff cfg ctx_five_minutes (fails_first 65) O in
   (65 < maxRetries_of cfg /\ fails_then_succeeds (fails_first 65) O 65) /\
   run_err run = None /\
   run_attempts run = 66%nat /\
   nth 64 (run_waits run) 1 = 0 /\
   run_waits run <> map (fun i => retryDelay_of cfg * 2 ^ Z.of_nat i) (seq 0 65)).
Proof.
  split; cbv zeta.
  - split; [split; [reflexivity | apply fails_first_fails_then_succeeds] |].
    vm_compute. split; reflexivity.
  - split; [split; [reflexivity | apply fails_first_fails_then_succeeds] |].
    repeat split; [vm_compute; reflexivity .. |].
    intros Heq. apply (f_equal (fun l => nth 64 l 1)) in Heq.
    vm_compute in Heq. discriminate Heq.
Qed.

(** C2, as amended: when the operation fails at every invocation and the
    context is not done during the backoff waits, the policy performs exactly
    [MaxAttempts] attempts and then returns an error that wraps the last
    failure observed and whose message states [MaxAttempts]. *)
Theorem retry_exhausts_attempts {St : Type} (cfg : Settings) (ctx : GoContext)
    (operation : St -> option error * St) (s : St) :
  always_fails operation s ->
  (forall attempt d, 1 <= attempt < maxRetries_of cfg -> ctx attempt d = None) ->
  let run := retryWithExponentialBackoff cfg ctx operation s in
  exists lastErr,
    outcome_at operation s (Z.to_nat (maxRetries_of cfg) - 1) = Some lastErr /\
    run_err run =
      Some (Errorf_w ("operation failed after " +:+ Itoa (maxRetries_of cfg)
                      +:+ " attempts: ") lastErr) /\
    run_attempts run = Z.to_nat (maxRetries_of cfg).
Proof.
  intros Hfail Hctx run. subst run.
  pose proof (maxRetries_of_pos cfg) as Hpos.
  unfold retryWithExponentialBackoff.
  destruct (Z.to_nat (maxRetries_of cfg)) as [| m] eqn:Hm; [lia |].
  rewrite (retry_loop_failures cfg ctx operation m); [| lia | lia | |].
  - replace (S m - m)%nat with 1%nat by lia.
    replace (S m - 1)%nat with m by lia.
    cbn [retry_loop].
    pose proof (Hfail m) as Hlast. unfold outcome_at in *.
    destruct (operation (state_at operation s m)) as [[e |] s'];
      [| cbn in Hlast; congruence].
    destruct (Z.ltb_spec (1 + Z.of_nat m) (maxRetries_of cfg)) as [? | _]; [lia |].
    exists e. cbn [fst run_err run_attempts Nat.add]. repeat split.
  - intros i _. apply Hfail.
  - intros i Hi. apply Hctx. lia.
Qed.

Lemma retry_exhausts_attempts_witness :
  let run :=
    retryWithExponentialBackoff (settings_of 3 None) ctx_background fails_forever O in
  exists lastErr,
    outcome_at fails_forever O 2 = Some lastErr /\
    run_err run = Some (Errorf_w "operation failed after 3 attempts: " lastErr) /\
    run_attempts run = 3%nat.
Proof.
  refine (retry_exhausts_attempts (settings_of 3 None) ctx_background
            fails_forever O _ _).
  - apply fails_forever_always_fails.
  - intros attempt d _. reflexivity.
Defined.

(** C2, as stated, fails on the code: with [RETRY_MAX=3] and
    [RETRY_DELAY=10m], under the five-minute deadline of
    [retryWithDefaultContext], an operation that fails at every invocation.
    The deadline passes during the first backoff wait: the policy stops after
    one attempt, and its error wraps the error of the context, not the
    failure of the operation. *)
Lemma retry_exhaustion_claim_counterexample :
  let cfg := settings_of 3 (Some (600 * time_Second)) in
  let run := retryWithExponentialBackoff cfg ctx_five_minutes fails_forever O in
  always_fails fails_forever O /\
  maxRetries_of cfg = 3 /\
  run_attempts run = 1%nat /\
  run_err run = Some (Errorf_w "operation cancelled: " DeadlineExceeded).
Proof.
  cbv zeta. split; [apply fails_forever_always_fails |].
  vm_compute. repeat split; reflexivity.
Qed.

(** C3: when the operation has failed [a] times, [a < MaxAttempts], and the
    context is done (deadline or cancellation) during the backoff wait that
    follows the [a]-th attempt, the policy returns at once an error that
    wraps the error of the context under "operation cancelled"; it has made
    [a] attempts, fewer than [MaxAttempts], and makes no other. *)
Theorem retry_cancelled_during_backoff {St : Type} (cfg : Settings) (ctx : GoContext)
    (operation : St -> option error * St) (s : St) (a : nat) (cerr : error) :
  (1 <= a)%nat ->
  Z.of_nat a < maxRetries_of cfg ->
  (forall i, (i < a)%nat -> outcome_at operation s i <> None) ->
  (forall i d, (i + 1 < a)%nat -> ctx (Z.of_nat i + 1) d = None) ->
  ctx (Z.of_nat a) (waitTime_of (retryDelay_of cfg) (Z.of_nat a)) = Some cerr ->
  let run := retryWithExponentialBackoff cfg ctx operation s in
  run_err run = Some (Errorf_w "operation cancelled: " cerr) /\
  run_attempts run = a /\
  (run_attempts run < Z.to_nat (maxRetries_of cfg))%nat /\
  run_state run = state_at operation s a.
Proof.
  intros Ha Hmax Hfail Hctx Hdone run. subst run.
  unfold retryWithExponentialBackoff.
  destruct a as [| m]; [lia |].
  rewrite (retry_loop_failures cfg ctx operation m); [| lia | lia | |].
  - destruct (Z.to_nat (maxRetries_of cfg) - m)%nat as [| r] eqn:Hr; [lia |].
    cbn [retry_loop].
    pose proof (Hfail m ltac:(lia)) as Hlast. unfold outcome_at in Hlast.
    assert (Hst : state_at operation s (S m)
                  = snd (operation (state_at operation s m))).
    { clear. revert s. induction m as [| m IH]; intros s; [reflexivity |].
      cbn [state_at] in *. apply IH. }
    rewrite Hst.
    destruct (operation (state_at operation s m)) as [[e |] s'];
      [| cbn in Hlast; congruence].
    destruct (Z.ltb_spec (1 + Z.of_nat m) (maxRetries_of cfg)) as [_ | ?]; [| lia].
    cbv zeta. replace (1 + Z.of_nat m) with (Z.of_nat (S m)) by lia.
    rewrite Hdone. cbn [run_err run_attempts run_state snd]. repeat split; lia.
  - intros i Hi. apply Hfail. lia.
  - intros i Hi. replace (1 + Z.of_nat i) with (Z.of_nat i + 1) by lia.
    apply Hctx. lia.
Qed.

Lemma retry_cancelled_during_backoff_witness :
  let run :=
    retryWithExponentialBackoff (settings_of 5 (Some time_Second))
      (ctx_deadline_during 2) fails_forever O in
  run_err run = Some (Errorf_w "operation cancelled: " DeadlineExceeded) /\
  run_attempts run = 2%nat /\
  (run_attempts run < 5)%nat /\
  run_state run = 2%nat.
Proof.
  refine (retry_cancelled_during_backoff (settings_of 5 (Some time_Second))
            (ctx_deadline_during 2) fails_forever O 2 DeadlineExceeded _ _ _ _ _).
  - lia.
  - reflexivity.
  - intros i _. apply fails_forever_always_fails.
  - intros i d Hi. assert (i = O) as -> by lia. reflexivity.
  - reflexivity.
Defined.

(** ** The existence check (C4, C5) *)

Section ApiFacts.
Context {W : Type}.
Variable E : Env W.
Variable cfg : Settings.

(** An operation that makes one remote call at each invocation leaves, at
    the end of the retry loop, as many events as it was invoked. *)
Lemma retry_loop_trace (ev : Event) (operation : State W -> option error * State W)
    (ctx : GoContext) :
  (forall s, trace (snd (operation s)) = (trace s ++ [ev])%list) ->
  forall remaining attempt lastErr waits calls s,
    let run := retry_loop cfg ctx operation remaining attempt lastErr waits calls s in
    exists n, trace (run_state run) = (trace s ++ replicate n ev)%list.
Proof.
  intros Hop. induction remaining as [| r IH]; intros attempt lastErr waits calls s.
  - exists O. cbn. rewrite app_nil_r. reflexivity.
  - cbn [retry_loop]. pose proof (Hop s) as Hs.
    destruct (operation s) as [[e |] s']; cbn [snd] in Hs.
    + destruct (attempt <? maxRetries_of cfg).
      * cbv zeta.
        destruct (ctx attempt (waitTime_of (retryDelay_of cfg) attempt)).
        -- exists 1%nat. exact Hs.
        -- destruct (IH (attempt + 1) (Some e)
                       (waits ++ [waitTime_of (retryDelay_of cfg) attempt])%list
                       (S calls) s') as [n Hn].
           exists (S n). cbv zeta in Hn. rewrite Hn, Hs, <- app_assoc. reflexivity.
      * destruct (IH (attempt + 1) (Some e) waits (S calls) s') as [n Hn].
        exists (S n). cbv zeta in Hn. rewrite Hn, Hs, <- app_assoc. reflexivity.
    + exists 1%nat. exact Hs.
Qed.
End ApiFacts.

(** The remote calls of a repository-scope creation, as the code makes
    them: the lookup of the existence check is the first call and the only
    lookup, whatever it returns; when it fails the writer returns the
    repository-not-found error and attempts no creation. *)
Lemma existence_check_single_lookup {W : Type} (E : Env W) (cfg : Settings)
    (org repo name value visibility token : string) (hostname : list string)
    (st : State W) (client : Client) :
  org <> "" -> name <> "" -> repo <> "" ->
  initializeGitHubClient E cfg
    {| Token := token; Hostname := extractHostname hostname |} = inr client ->
  let r := AddRepoVariable E cfg org repo name value visibility token hostname st in
  exists n variable,
    trace (snd r) =
      (trace st ++ EvGetRepository org repo
                   :: replicate n (EvCreateRepoVariable org repo variable))%list /\
    (forall err w',
       Repositories_Get E client org repo (world st) = (inl err, w') ->
       n = O /\ fst r = Some (repositoryNotFound repo org)).
Proof.
  intros Horg Hname Hrepo Hinit r. subst r.
  unfold AddRepoVariable, addGitHubVariable.
  apply String.eqb_neq in Horg, Hname, Hrepo. rewrite Horg, Hname, Hrepo.
  cbn [orb andb]. rewrite andb_false_r.
  replace (String.eqb EntityTypeRepository EntityTypeRepository) with true
    by reflexivity.
  unfold doesRepositoryExist. rewrite Hinit.
  unfold call_Get, record_event.
  set (variable :=
         {| Name := name; Value := value;
            Visibility := Some (if String.eqb visibility ""
                                then defaultVariableVisibility else visibility) |}).
  destruct (Repositories_Get E client org repo (world st)) as [[err | resp] w1] eqn:Hget;
    cbn [fst snd].
  - exists O, variable. cbn [snd trace replicate]. split; [reflexivity |].
    intros err' w' _. split; reflexivity.
  - destruct (StatusCode resp =? 200).
    + replace (String.eqb EntityTypeRepository EntityTypeOrg) with false by reflexivity.
      unfold retryWithDefaultContext, retryWithExponentialBackoff.
      match goal with
      | |- context [retry_loop cfg ?c ?op ?rem ?a ?l ?ws ?k ?s0] =>
          destruct (retry_loop_trace cfg (EvCreateRepoVariable org repo variable)
                      op c (fun _ => eq_refl) rem a l ws k s0) as [n Hn];
          cbv zeta in Hn;
          destruct (run_err (retry_loop cfg c op rem a l ws k s0))
      end.
      * exists n, variable. cbn [snd]. rewrite Hn. cbn [trace].
        rewrite <- app_assoc. split; [reflexivity |]. intros err w' H. discriminate H.
      * exists n, variable. cbn [snd]. rewrite Hn. cbn [trace].
        rewrite <- app_assoc. split; [reflexivity |]. intros err w' H. discriminate H.
    + exists O, variable. cbn [snd trace replicate]. split; [reflexivity |].
      intros err w' H. discriminate H.
Qed.

(** The same on a lookup that fails: no creation follows it. *)
Lemma existence_check_single_lookup_failing :
  let r :=
    AddRepoVariable (demo_env 1) (settings_of 3 None) "acme" "repoA" "VAR2" "val2"
      "private" "t0ken" [""] demo_state in
  trace (snd r) = [EvGetRepository "acme" "repoA"] /\
  fst r = Some (repositoryNotFound "repoA" "acme").
Proof.
  destruct (existence_check_single_lookup (demo_env 1) (settings_of 3 None)
              "acme" "repoA" "VAR2" "val2" "private" "t0ken" [""] demo_state
              {| client_config := {| Token := "t0ken"; Hostname := "" |};
                 client_proxy := loadProxyConfigFromEnv (settings_of 3 None) |})
    as (n & variable & Htrace & Hfail);
    [discriminate | discriminate | discriminate | reflexivity |].
  destruct (Hfail (errorString "502 Bad Gateway") 1%nat eq_refl) as [-> Herr].
  split; [exact Htrace | exact Herr].
Defined.

(** C4: before a repository-scope creation the writer checks that the
    repository exists, and the lookup of this check is to be wrapped in the
    retry policy, as the creation call of the same function and the list
    calls of the reader are. The code makes the lookup outside the policy:
    with three attempts configured, when the lookup of an existing repository
    fails once (a second lookup would succeed), the writer makes this one
    lookup, takes the repository for missing and returns the
    repository-not-found error, without a second attempt and without the
    creation. *)
Theorem existence_check_lookup_not_retried :
  let E := demo_env 1 in
  let cfg := settings_of 3 (Some time_Second) in
  let client :=
    {| client_config := {| Token := "t0ken"; Hostname := "" |};
       client_proxy := loadProxyConfigFromEnv cfg |} in
  let r :=
    AddRepoVariable E cfg "acme" "repoA" "VAR2" "val2" "private" "t0ken" [""]
      demo_state in
  maxRetries_of cfg = 3 /\
  fst (Repositories_Get E client "acme" "repoA" 0%nat)
    = inl (errorString "502 Bad Gateway") /\
  fst (Repositories_Get E client "acme" "repoA" 1%nat)
    = inr {| StatusCode := 200; NextPage := 0 |} /\
  fst r = Some (repositoryNotFound "repoA" "acme") /\
  trace (snd r) = [EvGetRepository "acme" "repoA"].
Proof. vm_compute. repeat split; reflexivity. Qed.

(** C5: whenever the remote lookup of the existence check fails, whatever
    its error, the check returns [false] and no error; the error of the
    lookup is dropped. *)
Theorem existence_check_lookup_failure {W : Type} (E : Env W) (cfg : Settings)
    (org repo token : string) (hostname : list string) (st : State W)
    (client : Client) (err : error) (w' : W) :
  initializeGitHubClient E cfg
    {| Token := token; Hostname := extractHostname hostname |} = inr client ->
  Repositories_Get E client org repo (world st) = (inl err, w') ->
  doesRepositoryExist E cfg org repo token hostname st =
    ((false, None),
     {| world := w'; trace := (trace st ++ [EvGetRepository org repo])%list |}).
Proof.
  intros Hinit Hget. unfold doesRepositoryExist. rewrite Hinit.
  unfold call_Get, record_event. rewrite Hget. reflexivity.
Qed.

Lemma existence_check_lookup_failure_witness :
  doesRepositoryExist (demo_env 0) (settings_of 3 None) "acme" "missing-repo"
    "t0ken" [""] demo_state =
    ((false, None),
     {| world := 1%nat; trace := [EvGetRepository "acme" "missing-repo"] |}).
Proof.
  exact (existence_check_lookup_failure (demo_env 0) (settings_of 3 None)
           "acme" "missing-repo" "t0ken" [""] demo_state
           {| client_config := {| Token := "t0ken"; Hostname := "" |};
              client_proxy := loadProxyConfigFromEnv (settings_of 3 None) |}
           (errorString "404 Not Found") 1%nat eq_refl eq_refl).
Defined.

(** ** Classification of the outcomes by the sync orchestrator (C6) *)

(** The only error of [AddRepoVariable] whose text is that of the
    repository-not-found error is this error itself. *)
Lemma AddRepoVariable_not_found_text {W : Type} (E : Env W) (cfg : Settings)
    (org repo name value visibility token : string) (hostname : list string)
    (st : State W) (err : error) :
  fst (AddRepoVariable E cfg org repo name value visibility token hostname st)
    = Some err ->
  Error err = "repository " +:+ repo +:+ " does not exist in organization " +:+ org ->
  err = repositoryNotFound repo org.
Proof.
  unfold AddRepoVariable, addGitHubVariable. intros Hres Htext.
  destruct (String.eqb org "" || String.eqb name "").
  { cbn in Hres. injection Hres as <-. cbn in Htext. discriminate Htext. }
  replace (String.eqb EntityTypeRepository EntityTypeRepository) with true in Hres
    by reflexivity.
  destruct (String.eqb_spec repo "") as [-> | _].
  { cbn in Hres. injection Hres as <-. cbn in Htext. discriminate Htext. }
  cbn [andb] in Hres. cbv zeta in Hres.
  destruct (doesRepositoryExist E cfg org repo token hostname st)
    as [[[|] [e |]] st1]; cbn [fst] in Hres.
  - injection Hres as <-. cbn in Htext. discriminate Htext.
  - destruct (initializeGitHubClient E cfg _) as [e | client]; cbn [fst] in Hres.
    + injection Hres as <-. cbn in Htext. discriminate Htext.
    + destruct (run_err _) as [e |]; cbn [fst] in Hres; [| discriminate Hres].
      injection Hres as <-. cbn in Htext. discriminate Htext.
  - injection Hres as <-. cbn in Htext. discriminate Htext.
  - injection Hres as <-. reflexivity.
Qed.

(** C6: for every record with its four columns, the orchestrator makes one
    call of the writer (for the organization when the scope is
    "organization", for the repository named by the scope otherwise) and
    counts the record once: as succeeded when the call succeeds; as skipped
    when it fails, for a repository, with the repository-not-found error of
    the scope and organization attempted; as failed for every other failure,
    those of the organization scope included. Exactly one of the three
    counters goes up by one. *)
Theorem sync_record_classification {W : Type} (E : Env W) (cfg : Settings)
    (targetOrg targetToken hostname : string) (stats : Stats)
    (record : list string) (st : State W) :
  (4 <= length record)%nat ->
  let variableName := nth 0 record "" in
  let variableValue := nth 1 record "" in
  let scope := nth 2 record "" in
  let visibility := nth 3 record "" in
  let applied :=
    if decide (scope = "organization")
    then AddOrgVariable E cfg targetOrg variableName variableValue visibility
           targetToken [hostname] st
    else AddRepoVariable E cfg targetOrg scope variableName variableValue visibility
           targetToken [hostname] st in
  let r := sync_record E cfg targetOrg targetToken hostname stats record st in
  snd r = snd applied /\
  (fst applied = None -> fst r = incr_succeeded (incr_total stats)) /\
  (forall err, fst applied = Some err ->
     scope <> "organization" /\ err = repositoryNotFound scope targetOrg ->
     fst r = incr_skipped (incr_total stats)) /\
  (forall err, fst applied = Some err ->
     ~ (scope <> "organization" /\ err = repositoryNotFound scope targetOrg) ->
     fst r = incr_failed (incr_total stats)) /\
  total (fst r) = total stats + 1 /\
  succeeded (fst r) + failed (fst r) + skipped (fst r)
    = succeeded stats + failed stats + skipped stats + 1 /\
  succeeded stats <= succeeded (fst r) /\
  failed stats <= failed (fst r) /\
  skipped stats <= skipped (fst r).
Proof.
  intros Hlen variableName variableValue scope visibility applied r.
  subst r applied. unfold sync_record.
  destruct (Z.ltb_spec (Z.of_nat (length record)) 4) as [? | _]; [lia |].
  cbv zeta. fold variableName variableValue scope visibility.
  destruct (String.eqb_spec scope "organization") as [Hs | Hs].
  - rewrite decide_True by exact Hs.
    destruct (AddOrgVariable E cfg targetOrg variableName variableValue visibility
                targetToken [hostname] st) as [[err |] st'] eqn:Hadd; cbn [fst snd].
    + repeat split; try (cbn; lia).
      * discriminate.
      * intros err' _ [Hne _]. contradiction.
    + repeat split; try (cbn; lia).
      * intros err' H. discriminate H.
      * intros err' H. discriminate H.
  - rewrite decide_False by exact Hs.
    destruct (AddRepoVariable E cfg targetOrg scope variableName variableValue
                visibility targetToken [hostname] st) as [[err |] st'] eqn:Hadd;
      cbn [fst snd].
    + destruct (String.eqb_spec (Error err)
                  ("repository " +:+ scope +:+ " does not exist in organization "
                   +:+ targetOrg)) as [Htext | Htext]; cbn [fst snd].
      * assert (Herr : err = repositoryNotFound scope targetOrg).
        { eapply AddRepoVariable_not_found_text; [| exact Htext].
          rewrite Hadd. reflexivity. }
        repeat split; try (cbn; lia).
        -- discriminate.
        -- intros err' Heq Hnot. injection Heq as <-. exfalso. apply Hnot.
           split; assumption.
      * repeat split; try (cbn; lia).
        -- discriminate.
        -- intros err' Heq [_ Herr]. injection Heq as <-. subst err.
           exfalso. apply Htext. reflexivity.
    + repeat split; try (cbn; lia).
      * intros err' H. discriminate H.
      * intros err' H. discriminate H.
Qed.

Lemma sync_record_classification_witness :
  let stats := {| total := 1; succeeded := 1; failed := 0; skipped := 0 |} in
  let r :=
    sync_record (demo_env 0) (settings_of 3 None) "acme" "t0ken" "" stats
      ["VAR2"; "val2"; "missing-repo"; "private"] demo_state in
  fst r = {| total := 2; succeeded := 1; failed := 0; skipped := 1 |}.
Proof.
  cbv zeta.
  refine (proj1 (proj2 (proj2
            (sync_record_classification (demo_env 0) (settings_of 3 None)
               "acme" "t0ken" ""
               {| total := 1; succeeded := 1; failed := 0; skipped := 0 |}
               ["VAR2"; "val2"; "missing-repo"; "private"] demo_state _)))
            (repositoryNotFound "missing-repo" "acme") _ _).
  - cbn. lia.
  - reflexivity.
  - split; [discriminate | reflexivity].
Defined.

(** ** Records without a name (C7) *)

Lemma parseGitHubVariable_named (variable : option ActionsVariable) (scope : string)
    (record : gmap string string) :
  parseGitHubVariable variable scope = Some record -> named record.
Proof.
  unfold parseGitHubVariable, named.
  destruct variable as [v |]; [| discriminate].
  destruct (String.eqb_spec (Name v) "") as [| Hne]; [discriminate |].
  intros Hrec. exists (Name v). split; [| exact Hne].
  destruct (Visibility v); injection Hrec as <-;
    rewrite !lookup_insert_ne by discriminate; apply lookup_singleton_eq.
Qed.

Lemma parseGitHubVariable_None (variable : option ActionsVariable) (scope : string) :
  parseGitHubVariable variable scope = None <->
  variable = None \/ exists v, variable = Some v /\ Name v = "".
Proof.
  unfold parseGitHubVariable. destruct variable as [v |].
  - destruct (String.eqb_spec (Name v) "") as [He | Hne].
    + split; [| reflexivity]. intros _. right. exists v. split; [reflexivity | exact He].
    + split.
      * destruct (Visibility v); discriminate.
      * intros [H | (v' & H & Hv')]; [discriminate H |].
        injection H as <-. contradiction.
  - split; [intros _; left |]; reflexivity.
Qed.

Lemma parsed_variables_named (scope : string) (variables : list (option ActionsVariable)) :
  Forall named (omap (fun variable => parseGitHubVariable variable scope) variables).
Proof.
  induction variables as [| variable variables IH]; cbn [omap list_omap].
  - constructor.
  - destruct (parseGitHubVariable variable scope) as [record |] eqn:Hp; cbn.
    + constructor; [eapply parseGitHubVariable_named, Hp | exact IH].
    + exact IH.
Qed.

Lemma export_write_loop_rows {W : Type} (E : Env W)
    (allVariables : list (gmap string string)) :
  forall (variablesWritten : Z) (st : State W),
  exists rows,
    trace (snd (export_write_loop E allVariables variablesWritten st))
      = (trace st ++ map EvCsvWrite rows)%list /\
    Forall named_row rows.
Proof.
  induction allVariables as [| variable rest IH]; intros written st; cbn [export_write_loop].
  - exists []. cbn. rewrite app_nil_r. split; [reflexivity | constructor].
  - destruct (variable !! "Name") as [name |]; [| apply IH].
    destruct (String.eqb_spec name "") as [| Hne]; cbn [negb]; [apply IH |].
    unfold call_csv_Write, record_event.
    destruct (csv_Write E _ (world st)) as [[err |] w'] eqn:Hw; cbn [fst snd].
    + eexists [_]. cbn [snd trace map]. split; [reflexivity |].
      constructor; [| constructor].
      eexists _, _. split; [reflexivity | exact Hne].
    + match goal with
      | |- context [export_write_loop E rest ?n ?s] =>
          destruct (IH n s) as (rows & Htr & Hrows)
      end.
      eexists (_ :: rows). rewrite Htr. cbn [trace map]. rewrite <- app_assoc.
      split; [reflexivity |]. constructor; [| exact Hrows].
      eexists _, _. split; [reflexivity | exact Hne].
Qed.

Lemma csv_rows_app (evs1 evs2 : list Event) :
  csv_rows (evs1 ++ evs2) = (csv_rows evs1 ++ csv_rows evs2)%list.
Proof. unfold csv_rows. apply omap_app. Qed.

Lemma writes_no_row_refl {W : Type} (st : State W) : writes_no_row st st.
Proof. exists []. rewrite app_nil_r. split; reflexivity. Qed.

Lemma writes_no_row_trans {W : Type} (st1 st2 st3 : State W) :
  writes_no_row st1 st2 -> writes_no_row st2 st3 -> writes_no_row st1 st3.
Proof.
  intros (evs1 & H1 & Hq1) (evs2 & H2 & Hq2). exists (evs1 ++ evs2)%list.
  rewrite H2, H1, <- app_assoc, csv_rows_app, Hq1, Hq2. split; reflexivity.
Qed.

Lemma record_event_writes_no_row {W A : Type} (ev : Event) (r : A * W) (st : State W) :
  csv_rows [ev] = [] -> writes_no_row st (snd (record_event ev r st)).
Proof. intros Hev. exists [ev]. split; [reflexivity | exact Hev]. Qed.

(** What every invocation of the operation preserves, the retry loop
    preserves. *)
Lemma retry_loop_preserves {St : Type} (R : St -> St -> Prop) (cfg : Settings)
    (ctx : GoContext) (operation : St -> option error * St) :
  (forall s, R s s) ->
  (forall s1 s2 s3, R s1 s2 -> R s2 s3 -> R s1 s3) ->
  (forall s, R s (snd (operation s))) ->
  forall remaining attempt lastErr waits calls s,
    R s (run_state (retry_loop cfg ctx operation remaining attempt lastErr waits calls s)).
Proof.
  intros Hrefl Htrans Hop.
  induction remaining as [| r IH]; intros attempt lastErr waits calls s;
    cbn [retry_loop].
  - apply Hrefl.
  - pose proof (Hop s) as Hs. destruct (operation s) as [[e |] s1]; cbn [snd] in Hs.
    + destruct (attempt <? maxRetries_of cfg).
      * cbv zeta. destruct (ctx attempt _); [exact Hs |].
        eapply Htrans; [exact Hs | apply IH].
      * eapply Htrans; [exact Hs | apply IH].
    + exact Hs.
Qed.

Lemma paginate_loop_preserves {St : Type} (R : St -> St -> Prop)
    (fetch : RepositoryListByOrgOptions -> St ->
             (option (list (option Repository)) * option Response * option error) * St) :
  (forall s1 s2 s3, R s1 s2 -> R s2 s3 -> R s1 s3) ->
  (forall opts s, R s (snd (fetch opts s))) ->
  forall fuel opts allResources s result s',
    paginate_loop fetch fuel opts allResources s = Some (result, s') -> R s s'.
Proof.
  intros Htrans Hfetch.
  induction fuel as [| fuel IH]; intros opts acc s result s'; cbn [paginate_loop];
    [discriminate |].
  pose proof (Hfetch opts s) as Hs.
  destruct (fetch opts s) as [[[repos resp] err] s1]; cbn [snd] in Hs.
  destruct err as [err |].
  - destruct repos; intros H; injection H as _ <-; exact Hs.
  - destruct repos as [repos |]; [| intros H; injection H as _ <-; exact Hs].
    destruct resp as [r |]; [| intros H; injection H as _ <-; exact Hs].
    destruct (NextPage r =? 0); [intros H; injection H as _ <-; exact Hs |].
    intros H. eapply Htrans; [exact Hs | eapply IH, H].
Qed.

Section ReaderFacts.
Context {W : Type}.
Variable E : Env W.
Variable cfg : Settings.

Lemma fetchGitHubVariables_writes_no_row (entityType org repo token : string)
    (hostname : list string) (st : State W) :
  writes_no_row st
    (snd (fetchGitHubVariables E cfg entityType org repo token hostname st)).
Proof.
  unfold fetchGitHubVariables.
  destruct (String.eqb org ""); [apply writes_no_row_refl |].
  destruct (String.eqb entityType EntityTypeRepository && String.eqb repo "");
    [apply writes_no_row_refl |].
  destruct (initializeGitHubClient E cfg _) as [e | client];
    [apply writes_no_row_refl |].
  cbv zeta. unfold retryWithDefaultContext, retryWithExponentialBackoff.
  match goal with
  | |- context [retry_loop cfg ?c ?op ?rem ?a ?l ?ws ?k ?s0] =>
      pose proof (retry_loop_preserves
                    (fun s1 s2 : State W * option ActionsVariables =>
                       writes_no_row (fst s1) (fst s2))
                    cfg c op
                    (fun s => writes_no_row_refl (fst s))
                    (fun s1 s2 s3 => writes_no_row_trans (fst s1) (fst s2) (fst s3)))
        as Hrun;
      specialize (fun H => Hrun H rem a l ws k s0);
      cbn beta in Hrun;
      destruct (run_err (retry_loop cfg c op rem a l ws k s0));
      [| destruct (snd (run_state (retry_loop cfg c op rem a l ws k s0)))]
  end; cbn [snd fst] in *; apply Hrun; intros s; cbn [snd fst];
    (destruct (String.eqb entityType EntityTypeOrg);
     apply record_event_writes_no_row; reflexivity).
Qed.

Lemma FetchAllRepositories_writes_no_row (fuel : nat) (org token : string)
    (hostname : list string) (st : State W) result (st' : State W) :
  FetchAllRepositories E cfg fuel org token hostname st = Some (result, st') ->
  writes_no_row st st'.
Proof.
  unfold FetchAllRepositories, listPaginatedRepositories.
  destruct (initializeGitHubClient E cfg _) as [e | client].
  - intros H. injection H as _ <-. apply writes_no_row_refl.
  - apply (paginate_loop_preserves writes_no_row).
    + apply writes_no_row_trans.
    + intros opts s. apply record_event_writes_no_row. reflexivity.
Qed.

Lemma export_repos_loop_writes_no_row (organization token hostname : string)
    (repos : list string) :
  forall allVariables successful failed (st : State W),
    writes_no_row st
      (snd (export_repos_loop E cfg organization token hostname repos allVariables
              successful failed st)).
Proof.
  induction repos as [| repo rest IH]; intros allVariables successful failed st;
    cbn [export_repos_loop].
  - apply writes_no_row_refl.
  - pose proof (fetchGitHubVariables_writes_no_row EntityTypeRepository organization
                  repo token [hostname] st) as Hfetch.
    unfold FetchRepoVariables.
    destruct (fetchGitHubVariables E cfg EntityTypeRepository organization repo token
                [hostname] st) as [[e | repoVariables] st1]; cbn [snd] in Hfetch;
      (eapply writes_no_row_trans; [exact Hfetch | apply IH]).
Qed.

(** The rows that [ExportVariables] hands to the CSV writer all start with a
    non-empty name. *)
Lemma ExportVariables_rows (fuel : nat) (st : State W) (t : Termination)
    (st' : State W) :
  ExportVariables E cfg fuel st = Some (t, st') ->
  exists evs,
    trace st' = (trace st ++ evs)%list /\ Forall named_row (csv_rows evs).
Proof.
  assert (Hquiet : forall st1 st2 : State W, writes_no_row st1 st2 ->
            exists evs, trace st2 = (trace st1 ++ evs)%list
                        /\ Forall named_row (csv_rows evs)).
  { intros st1 st2 (evs & Htr & Hrows). exists evs. rewrite Hrows.
    split; [exact Htr | constructor]. }
  unfold ExportVariables. cbv zeta.
  destruct (String.eqb (source_organization cfg) "" || String.eqb (source_token cfg) "").
  { intros H. injection H as _ <-. apply Hquiet, writes_no_row_refl. }
  pose proof (fetchGitHubVariables_writes_no_row EntityTypeOrg
                (source_organization cfg) "" (source_token cfg)
                [source_hostname cfg] st) as Horg.
  unfold FetchOrgVariables.
  destruct (fetchGitHubVariables E cfg EntityTypeOrg (source_organization cfg) ""
              (source_token cfg) [source_hostname cfg] st) as [orgRes st1];
    cbn [fst snd] in *.
  destruct (FetchAllRepositories E cfg fuel (source_organization cfg)
              (source_token cfg) [source_hostname cfg] st1)
    as [[[err | repos] st2] |] eqn:Hrepos; [| | discriminate].
  { apply FetchAllRepositories_writes_no_row in Hrepos.
    intros H. injection H as _ <-.
    apply Hquiet. eapply writes_no_row_trans; eassumption. }
  apply FetchAllRepositories_writes_no_row in Hrepos.
  match goal with
  | |- context [export_repos_loop E cfg ?o ?tk ?h repos ?vars ?a ?b st2] =>
      pose proof (export_repos_loop_writes_no_row o tk h repos vars a b st2) as Hloop;
      destruct (export_repos_loop E cfg o tk h repos vars a b st2)
        as [[[allVariables successful] failed] st3]
  end.
  cbn [snd] in Hloop.
  assert (H03 : writes_no_row st st3).
  { eapply writes_no_row_trans; [exact Horg |].
    eapply writes_no_row_trans; [exact Hrepos | exact Hloop]. }
  destruct (Z.of_nat (length allVariables) =? 0).
  { intros H. injection H as _ <-. apply Hquiet, H03. }
  destruct (os_Create E _) as [err |].
  { intros H. injection H as _ <-. apply Hquiet, H03. }
  destruct H03 as (evs & Htr & Hrows).
  unfold call_csv_Write at 1. unfold record_event.
  destruct (csv_Write E _ (world st3)) as [[err |] w4]; cbn [fst snd].
  { intros H. injection H as _ <-. cbn [trace].
    eexists (evs ++ [_])%list. rewrite Htr, <- app_assoc. split; [reflexivity |].
    rewrite csv_rows_app, Hrows. cbn. constructor; [| constructor].
    eexists _, _. split; [reflexivity | discriminate]. }
  match goal with
  | |- context [export_write_loop E allVariables ?n ?s4] =>
      destruct (export_write_loop_rows E allVariables n s4) as (rows & Htr4 & Hnamed);
      destruct (export_write_loop E allVariables n s4) as [[err | written] st5]
  end; cbn [snd trace] in Htr4.
  - intros H. injection H as _ <-.
    eexists ((evs ++ [_]) ++ map EvCsvWrite rows)%list.
    rewrite Htr4, Htr, !app_assoc. split; [reflexivity |].
    rewrite !csv_rows_app, Hrows. cbn [app csv_rows omap list_omap].
    constructor; [eexists _, _; split; [reflexivity | discriminate] |].
    clear -Hnamed. induction Hnamed; cbn; constructor; assumption.
  - intros H.
    assert (Hst : st' = st5) by (destruct (failed >? 0); injection H as _ <-; reflexivity).
    subst st'. clear H.
    eexists ((evs ++ [_]) ++ map EvCsvWrite rows)%list.
    rewrite Htr4, Htr, !app_assoc. split; [reflexivity |].
    rewrite !csv_rows_app, Hrows. cbn [app csv_rows omap list_omap].
    constructor; [eexists _, _; split; [reflexivity | discriminate] |].
    clear -Hnamed. induction Hnamed; cbn; constructor; assumption.
Qed.
End ReaderFacts.

(** C7: every record of a list produced by the Reader has a non-empty
    [Name]; a remote variable is dropped, without an error, exactly when it
    is nil or has an empty name; every row that the write loop of the export
    hands to the CSV writer, whatever the records it is given, starts with a
    non-empty name, and so does every row written by a run of
    [ExportVariables]. *)
Theorem reader_records_are_named {W : Type} (E : Env W) (cfg : Settings)
    (entityType org repo token : string) (hostname : list string) (st : State W)
    (records : list (gmap string string)) :
  fst (fetchGitHubVariables E cfg entityType org repo token hostname st) = inr records ->
  Forall named records /\
  (forall variable scope,
     parseGitHubVariable variable scope = None <->
     variable = None \/ exists v, variable = Some v /\ Name v = "") /\
  (forall (allVariables : list (gmap string string)) (written : Z) (st' : State W),
     exists rows,
       trace (snd (export_write_loop E allVariables written st'))
         = (trace st' ++ map EvCsvWrite rows)%list /\
       Forall named_row rows) /\
  (forall (fuel : nat) (st0 : State W) (t : Termination) (st1 : State W),
     ExportVariables E cfg fuel st0 = Some (t, st1) ->
     exists evs,
       trace st1 = (trace st0 ++ evs)%list /\ Forall named_row (csv_rows evs)).
Proof.
  intros Hfetch. split; [| split; [| split]]; [| | | apply ExportVariables_rows].
  - unfold fetchGitHubVariables in Hfetch.
    destruct (String.eqb org ""); [discriminate Hfetch |].
    destruct (String.eqb entityType EntityTypeRepository && String.eqb repo "");
      [discriminate Hfetch |].
    destruct (initializeGitHubClient E cfg _) as [e | client]; [discriminate Hfetch |].
    cbv zeta in Hfetch.
    destruct (run_err _) as [e |]; [discriminate Hfetch |].
    destruct (snd (run_state _)) as [variables |]; [| discriminate Hfetch].
    cbn [fst] in Hfetch. injection Hfetch as <-. apply parsed_variables_named.
  - apply parseGitHubVariable_None.
  - intros allVariables written st'. apply export_write_loop_rows.
Qed.

(** The organization variables of the demonstration remote: four entries,
    one nil and one without a name; two records come out. *)
Lemma reader_records_are_named_witness :
  Forall named
    [ ({[ "Name" := "VAR1"; "Value" := "val1"; "Scope" := "organization";
          "Visibility" := "all" ]} : gmap string string);
      {[ "Name" := "VAR2"; "Value" := "val2"; "Scope" := "organization";
         "Visibility" := "private" ]} ].
Proof.
  refine (proj1 (reader_records_are_named (demo_env 0) (settings_of 3 None)
                   EntityTypeOrg "acme" "" "t0ken" [""] demo_state _ _)).
  vm_compute. reflexivity.
Defined.

(** The export of the demonstration remote: of the four organization
    variables listed, the two that have a name are written after the
    header. *)
Example ExportVariables_demo :
  match ExportVariables (demo_env 0) (settings_of 3 None) 3 demo_state with
  | Some (t, st') =>
      t = Returned None /\
      csv_rows (trace st') =
        [["Name"; "Value"; "Scope"; "Visibility"];
         ["VAR1"; "val1"; "organization"; "all"];
         ["VAR2"; "val2"; "organization"; "private"]]
  | None => False
  end.
Proof. vm_compute. split; reflexivity. Qed.

(** ** Proxy selection (C8) *)

Lemma noProxy_loop_Exists (noProxyURLs : list string) (reqHost : string) :
  noProxy_loop noProxyURLs reqHost = true <->
  Exists (fun entry => TrimSpace entry = reqHost) noProxyURLs.
Proof.
  induction noProxyURLs as [| noProxy rest IH]; cbn [noProxy_loop].
  - split; [discriminate | intros H; inversion H].
  - destruct (String.eqb_spec (TrimSpace noProxy) reqHost) as [Heq | Hne].
    + split; [intros _; left; exact Heq | reflexivity].
    + rewrite IH. split.
      * intros H. right. exact H.
      * intros H. inversion H; [contradiction | assumption].
Qed.

(** C8: for every request, the proxy function of a configuration returns no
    proxy when the host of the request equals, after trimming of white space,
    an entry of the comma-separated NO_PROXY; otherwise the parsed HTTPS_PROXY
    for an https request when HTTPS_PROXY is not empty, the parsed HTTP_PROXY
    for an http request when HTTP_PROXY is not empty, and no proxy in the
    remaining cases. *)
Theorem buildProxyFunction_selection
    (url_Parse : string -> option URL * option error) (pc : ProxyConfig)
    (req : Request) :
  buildProxyFunction url_Parse (Some pc) req = proxy_selection url_Parse pc req.
Proof.
  unfold buildProxyFunction, proxy_selection, host_in_no_proxy,
    comma_separated_entries.
  destruct (String.eqb_spec (NoProxy pc) "") as [Hempty | Hentries]; cbn [negb].
  - rewrite (decide_True (P := NoProxy pc = "")) by exact Hempty.
    rewrite decide_False by (intros H; inversion H).
    destruct (String.eqb_spec (Scheme (req_URL req)) "https") as [Hs | Hs];
      destruct (String.eqb_spec (HTTPSProxy pc) "") as [Hp | Hp]; cbn [andb negb];
      repeat (first [rewrite decide_True by tauto | rewrite decide_False by tauto]);
      try reflexivity;
      destruct (String.eqb_spec (Scheme (req_URL req)) "http") as [Hs' | Hs'];
      destruct (String.eqb_spec (HTTPProxy pc) "") as [Hp' | Hp']; cbn [andb negb];
      repeat (first [rewrite decide_True by tauto | rewrite decide_False by tauto]);
      reflexivity.
  - rewrite (decide_False (P := NoProxy pc = "")) by exact Hentries.
    destruct (noProxy_loop (Split (NoProxy pc) ",") (Host (req_URL req))) eqn:Hloop.
    + rewrite decide_True by (apply noProxy_loop_Exists; exact Hloop). reflexivity.
    + rewrite decide_False
        by (intros H; apply noProxy_loop_Exists in H; congruence).
      destruct (String.eqb_spec (Scheme (req_URL req)) "https") as [Hs | Hs];
        destruct (String.eqb_spec (HTTPSProxy pc) "") as [Hp | Hp]; cbn [andb negb];
        repeat (first [rewrite decide_True by tauto | rewrite decide_False by tauto]);
        try reflexivity;
        destruct (String.eqb_spec (Scheme (req_URL req)) "http") as [Hs' | Hs'];
        destruct (String.eqb_spec (HTTPProxy pc) "") as [Hp' | Hp']; cbn [andb negb];
        repeat (first [rewrite decide_True by tauto | rewrite decide_False by tauto]);
        reflexivity.
Qed.

(** The proxy function at work: a host listed between spaces in NO_PROXY is
    not proxied; another host is proxied by its scheme. *)
Example buildProxyFunction_examples :
  let parse := fun raw : string => (Some {| Scheme := "http"; Host := raw |}, None) in
  let pc :=
    {| HTTPProxy := "proxy.local:3128"; HTTPSProxy := "secure.local:3129";
       NoProxy := "localhost, github.example.com ,10.0.0.1" |} in
  buildProxyFunction parse (Some pc)
    {| req_URL := {| Scheme := "https"; Host := "github.example.com" |} |}
    = (None, None) /\
  buildProxyFunction parse (Some pc)
    {| req_URL := {| Scheme := "https"; Host := "api.github.com" |} |}
    = (Some {| Scheme := "http"; Host := "secure.local:3129" |}, None) /\
  buildProxyFunction parse (Some pc)
    {| req_URL := {| Scheme := "http"; Host := "api.github.com" |} |}
    = (Some {| Scheme := "http"; Host := "proxy.local:3128" |}, None) /\
  buildProxyFunction parse (Some pc)
    {| req_URL := {| Scheme := "ftp"; Host := "api.github.com" |} |}
    = (None, None) /\
  buildProxyFunction parse (Some pc)
    {| req_URL := {| Scheme := "https"; Host := "example.com" |} |}
    <> (None, None).
Proof. vm_compute. repeat split; try reflexivity. discriminate. Qed.

(** ** The listing of the repositories (C9) *)

Lemma paginate_loop_walk {St : Type}
    (fetch : RepositoryListByOrgOptions -> St ->
             (option (list (option Repository)) * option Response * option error) * St)
    (page : Z) (s : St) (pages : list (list (option Repository)))
    (outcome : option error) (s' : St) :
  cursor_walk fetch page s pages outcome s' ->
  forall (fuel : nat) (allResources : list string),
    (length pages < fuel)%nat ->
    paginate_loop fetch fuel {| Page := page; PerPage := 100 |} allResources s =
    Some (match outcome with
          | Some err => inl err
          | None => inr (allResources ++ concat (map page_names pages))%list
          end, s').
Proof.
  induction 1 as [page s repos resp err s' Hf | page s resp s' Hf
                 | page s repos resp s' Hf Hlast
                 | page s repos r s' pages outcome s'' Hf Hnext Hwalk IH];
    intros fuel acc Hfuel; (destruct fuel as [| fuel]; [cbn in Hfuel; lia |]);
    cbn [paginate_loop]; rewrite Hf.
  - destruct repos; reflexivity.
  - reflexivity.
  - cbn [map concat]. rewrite app_nil_r.
    destruct Hlast as [-> | (r & -> & Hr)]; [reflexivity |].
    rewrite Hr. reflexivity.
  - destruct (Z.eqb_spec (NextPage r) 0) as [| _]; [contradiction |].
    cbn [PerPage]. rewrite IH by (cbn in Hfuel; lia).
    cbn [map concat]. rewrite app_assoc. reflexivity.
Qed.

(** C9: the listing asks for pages of 100 items, the first page first, then
    follows the [NextPage] cursors until a response reports no next page; it
    returns the names of the entries that are not null, page after page in
    order; it fails with the error of a failing page, and with the error "no
    data returned" when a page has a nil payload. The walk that ends after
    [n] pages is done by the loop as soon as it may run for more than [n]
    iterations. *)
Theorem listPaginatedRepositories_walk {St : Type}
    (fetch : RepositoryListByOrgOptions -> St ->
             (option (list (option Repository)) * option Response * option error) * St)
    (s : St) (pages : list (list (option Repository))) (outcome : option error)
    (s' : St) (fuel : nat) :
  cursor_walk fetch 0 s pages outcome s' ->
  (length pages < fuel)%nat ->
  listPaginatedRepositories fetch fuel s =
  Some (match outcome with
        | Some err => inl err
        | None => inr (concat (map page_names pages))
        end, s').
Proof.
  intros Hwalk Hfuel. unfold listPaginatedRepositories.
  rewrite (paginate_loop_walk fetch 0 s pages outcome s' Hwalk fuel [] Hfuel).
  reflexivity.
Qed.

Lemma listPaginatedRepositories_walk_witness :
  listPaginatedRepositories
    (fun opts w =>
       Repositories_ListByOrg (demo_env 0)
         {| client_config := {| Token := "t0ken"; Hostname := "" |};
            client_proxy := loadProxyConfigFromEnv (settings_of 3 None) |}
         "acme" opts w)
    3 O
  = Some (inr ["repoA"; "repoB"], 2%nat).
Proof.
  refine (listPaginatedRepositories_walk _ O
            [[Some {| repo_Name := Some "repoA" |}; None];
             [Some {| repo_Name := None |}; Some {| repo_Name := Some "repoB" |}]]
            None 2%nat 3 _ _).
  - eapply walk_next_page; [reflexivity | discriminate |].
    eapply walk_last_page; [reflexivity |].
    right. eexists. split; reflexivity.
  - cbn. lia.
Defined.

(** The listing of the demonstration remote through [FetchAllRepositories]:
    two requests of 100 items, for the page 0 and for the page 2 that the
    first response names. *)
Example FetchAllRepositories_demo :
  FetchAllRepositories (demo_env 0) (settings_of 3 None) 3 "acme" "t0ken" [""]
    demo_state
  = Some (inr ["repoA"; "repoB"],
          {| world := 2%nat;
             trace := [EvListByOrg "acme" {| Page := 0; PerPage := 100 |};
                       EvListByOrg "acme" {| Page := 2; PerPage := 100 |}] |}).
Proof. vm_compute. reflexivity. Qed.

(** ** The header row of the sync orchestrator (C10) *)

(** C10: [SyncVariables] skips the header with [records[1:]] whatever the
    records are. Once the parameters are there and the file is opened and
    parsed, it panics on the slice when the parsed list is empty, before any
    record is counted and without reaching a return; it ends normally, with
    its summary, exactly when there is at least one row. *)
Theorem SyncVariables_header_slice {W : Type} (E : Env W) (cfg : Settings)
    (st : State W) (records : list (list string)) :
  setting_file cfg <> "" ->
  target_organization cfg <> "" ->
  target_token cfg <> "" ->
  os_Open E (setting_file cfg) = None ->
  csv_ReadAll E (setting_file cfg) = inr records ->
  let r := SyncVariables E cfg st in
  (records = [] ->
   r = (Panicked "runtime error: slice bounds out of range [1:0]", None, st)) /\
  (records <> [] ->
   exists stats,
     snd (fst r) = Some stats /\
     (fst (fst r) = Returned None \/ fst (fst r) = Exited 1)).
Proof.
  intros Hfile Horg Htoken Hopen Hread r. subst r. unfold SyncVariables.
  apply String.eqb_neq in Hfile, Horg, Htoken.
  rewrite Hfile, Horg, Htoken, Hopen, Hread. cbn [orb].
  destruct records as [| header rest].
  - split; [reflexivity | congruence].
  - split; [discriminate |]. intros _.
    destruct (failed (fst (sync_loop E cfg _ _ _ rest _ st)) >? 0);
      eexists; cbn [fst snd]; split; eauto.
Qed.

Lemma SyncVariables_header_slice_witness :
  SyncVariables (demo_env 0) (sync_settings "empty.csv") demo_state
  = (Panicked "runtime error: slice bounds out of range [1:0]", None, demo_state).
Proof.
  refine (proj1 (SyncVariables_header_slice (demo_env 0) (sync_settings "empty.csv")
                   demo_state [] _ _ _ _ _) eq_refl).
  - discriminate.
  - discriminate.
  - discriminate.
  - reflexivity.
  - reflexivity.
Defined.

(** The scenarios of the specification: a header and two rows, the
    repository being there; the same with a repository that is not there; a
    row of three columns. *)
Example SyncVariables_scenarios :
  let summary (records : list (list string)) :=
    let E := demo_env 0 in
    fst (sync_loop E (sync_settings "acme_variables.csv") "acme" "t0ken" ""
           (tail records)
           {| total := 0; succeeded := 0; failed := 0; skipped := 0 |} demo_state) in
  fst (SyncVariables (demo_env 0) (sync_settings "acme_variables.csv") demo_state)
    = (Returned None,
       Some {| total := 2; succeeded := 2; failed := 0; skipped := 0 |}) /\
  summary [["Name"; "Value"; "Scope"; "Visibility"];
           ["VAR1"; "val1"; "organization"; "all"];
           ["VAR2"; "val2"; "missing-repo"; "private"]]
    = {| total := 2; succeeded := 1; failed := 0; skipped := 1 |} /\
  summary [["Name"; "Value"; "Scope"; "Visibility"];
           ["REJECTED"; "val1"; "organization"; "all"];
           ["VAR3"; "val3"; "repoA"]]
    = {| total := 2; succeeded := 0; failed := 1; skipped := 1 |}.
Proof. vm_compute. repeat split; reflexivity. Qed.

(** * Further properties of the code *)

(** ** Strings *)

Lemma string_app_assoc (a b c : string) : (a +:+ b) +:+ c = a +:+ b +:+ c.
Proof.
  induction a as [| x a IH]; [reflexivity |].
  change (String x ((a +:+ b) +:+ c) = String x (a +:+ b +:+ c)).
  rewrite IH. reflexivity.
Qed.

Lemma string_app_nil_r (a : string) : a +:+ "" = a.
Proof.
  induction a as [| x a IH]; [reflexivity |].
  change (String x (a +:+ "") = String x a). rewrite IH. reflexivity.
Qed.

Lemma string_length_app (a b : string) :
  String.length (a +:+ b) = (String.length a + String.length b)%nat.
Proof.
  induction a as [| x a IH]; [reflexivity |].
  change (S (String.length (a +:+ b)) = S (String.length a + String.length b)).
  rewrite IH. reflexivity.
Qed.

(** ** The retry policy, whatever the operation and the context *)

Section RetryRuns.
Context {St : Type}.
Variable cfg : Settings.
Variable ctx : GoContext.
Variable operation : St -> option error * St.

(** A run of the loop that has [remaining > 0] iterations left: it invokes
    the operation [m + 1] times, every invocation but the last one failing
    and being followed by a wait that runs to its end; the last invocation
    decides the result. *)
Lemma retry_loop_run (remaining : nat) :
  forall attempt lastErr waits calls s,
    attempt + Z.of_nat remaining = maxRetries_of cfg + 1 ->
    (0 < remaining)%nat ->
    let run := retry_loop cfg ctx operation remaining attempt lastErr waits calls s in
    exists m : nat,
      (m < remaining)%nat /\
      run_attempts run = (calls + S m)%nat /\
      run_state run = state_at operation s (S m) /\
      run_waits run =
        (waits ++ map (fun i => waitTime_of (retryDelay_of cfg) (attempt + Z.of_nat i))
                      (seq 0 m))%list /\
      (forall i, (i < m)%nat -> outcome_at operation s i <> None) /\
      match outcome_at operation s m with
      | None => run_err run = None
      | Some err =>
          (S m = remaining /\
           run_err run =
             Some (Errorf_w ("operation failed after " +:+ Itoa (maxRetries_of cfg)
                             +:+ " attempts: ") err)) \/
          ((S m < remaining)%nat /\
           exists cerr,
             ctx (attempt + Z.of_nat m)
                 (waitTime_of (retryDelay_of cfg) (attempt + Z.of_nat m)) = Some cerr /\
             run_err run = Some (Errorf_w "operation cancelled: " cerr))
      end.
Proof.
  induction remaining as [| r IH]; intros attempt lastErr waits calls s Hinv Hpos run;
    [lia |].
  subst run. cbn [retry_loop].
  destruct (operation s) as [[e |] s1] eqn:Hop.
  - destruct (Z.ltb_spec attempt (maxRetries_of cfg)) as [Hlt | Hge].
    + cbv zeta.
      destruct (ctx attempt (waitTime_of (retryDelay_of cfg) attempt)) as [cerr |] eqn:Hctx.
      * exists O. cbn [run_attempts run_state run_waits run_err seq map state_at].
        rewrite Hop, app_nil_r, Z.add_0_r. unfold outcome_at. cbn [state_at].
        rewrite Hop. cbn [fst snd].
        repeat split; try lia.
        right. split; [lia |]. exists cerr. split; [exact Hctx | reflexivity].
      * destruct (IH (attempt + 1) (Some e)
                     (waits ++ [waitTime_of (retryDelay_of cfg) attempt])%list
                     (S calls) s1 ltac:(lia) ltac:(lia))
          as (m & Hm & Hatt & Hst & Hw & Hfail & Hlast).
        exists (S m). cbv zeta in *.
        rewrite Hatt, Hst, Hw. cbn [state_at seq map]. rewrite Hop. cbn [snd].
        split; [lia |]. split; [lia |]. split; [reflexivity |]. split.
        { rewrite <- app_assoc. cbn [app]. rewrite Z.add_0_r. do 2 f_equal.
          rewrite <- seq_shift, map_map. apply map_ext. intros i. f_equal. lia. }
        split.
        { intros [| i] Hi.
          - unfold outcome_at. cbn [state_at]. rewrite Hop. discriminate.
          - rewrite outcome_at_S, Hop. apply Hfail. lia. }
        rewrite outcome_at_S, Hop. cbn [snd].
        destruct (outcome_at operation s1 m) as [err |]; [| exact Hlast].
        destruct Hlast as [[Heq Herr] | [Hlt' (cerr & Hc & Herr)]].
        -- left. split; [lia | exact Herr].
        -- right. split; [lia |]. exists cerr.
           replace (attempt + Z.of_nat (S m)) with (attempt + 1 + Z.of_nat m) by lia.
           split; assumption.
    + assert (r = O) as -> by lia. cbn [retry_loop].
      exists O. cbn [run_attempts run_state run_waits run_err seq map state_at].
      rewrite Hop, app_nil_r. unfold outcome_at. cbn [state_at]. rewrite Hop.
      cbn [fst snd]. repeat split; try lia. left. split; reflexivity.
  - exists O. cbn [run_attempts run_state run_waits run_err seq map state_at].
    rewrite Hop, app_nil_r. unfold outcome_at. cbn [state_at]. rewrite Hop.
    cbn [fst snd]. repeat split; lia.
Qed.

Lemma retry_run (s : St) :
  let run := retryWithExponentialBackoff cfg ctx operation s in
  exists m : nat,
    (m < Z.to_nat (maxRetries_of cfg))%nat /\
    run_attempts run = S m /\
    run_state run = state_at operation s (S m) /\
    run_waits run =
      map (fun i => waitTime_of (retryDelay_of cfg) (1 + Z.of_nat i)) (seq 0 m) /\
    (forall i, (i < m)%nat -> outcome_at operation s i <> None) /\
    match outcome_at operation s m with
    | None => run_err run = None
    | Some err =>
        (S m = Z.to_nat (maxRetries_of cfg) /\
         run_err run =
           Some (Errorf_w ("operation failed after " +:+ Itoa (maxRetries_of cfg)
                           +:+ " attempts: ") err)) \/
        ((S m < Z.to_nat (maxRetries_of cfg))%nat /\
         exists cerr,
           ctx (1 + Z.of_nat m)
               (waitTime_of (retryDelay_of cfg) (1 + Z.of_nat m)) = Some cerr /\
           run_err run = Some (Errorf_w "operation cancelled: " cerr))
    end.
Proof.
  pose proof (maxRetries_of_pos cfg) as Hpos.
  apply (retry_loop_run (Z.to_nat (maxRetries_of cfg)) 1 None [] O s); lia.
Qed.
End RetryRuns.

(** X1: whatever the operation and the context, the policy invokes the
    operation at least once and at most [MaxAttempts] times; the waits that
    ran to their end are one fewer than the attempts, the wait after attempt
    [a] being [retryDelay * (1 << (a-1))] in 64-bit arithmetic; and the state
    left is the one after that many invocations. *)
Theorem retry_attempts_bounded {St : Type} (cfg : Settings) (ctx : GoContext)
    (operation : St -> option error * St) (s : St) :
  let run := retryWithExponentialBackoff cfg ctx operation s in
  (1 <= run_attempts run <= Z.to_nat (maxRetries_of cfg))%nat /\
  run_waits run =
    map (fun a => waitTime_of (retryDelay_of cfg) (Z.of_nat a))
        (seq 1 (run_attempts run - 1)) /\
  run_state run = state_at operation s (run_attempts run).
Proof.
  intros run. subst run.
  destruct (retry_run cfg ctx operation s) as (m & Hm & Hatt & Hst & Hw & _).
  cbv zeta in *. rewrite Hatt, Hst, Hw.
  replace (S m - 1)%nat with m by lia.
  split; [lia |]. split; [| reflexivity].
  rewrite <- seq_shift, map_map. apply map_ext. intros i. f_equal. lia.
Qed.

(** X2: the policy stops at the first success: every invocation before the
    last one failed, and the policy returns nil exactly when the last
    invocation it made returned nil. *)
Theorem retry_stops_at_first_success {St : Type} (cfg : Settings) (ctx : GoContext)
    (operation : St -> option error * St) (s : St) :
  let run := retryWithExponentialBackoff cfg ctx operation s in
  (forall i, (i + 1 < run_attempts run)%nat -> outcome_at operation s i <> None) /\
  (run_err run = None <-> outcome_at operation s (run_attempts run - 1) = None).
Proof.
  intros run. subst run.
  destruct (retry_run cfg ctx operation s) as (m & Hm & Hatt & _ & _ & Hfail & Hlast).
  cbv zeta in *. rewrite Hatt. replace (S m - 1)%nat with m by lia.
  split; [intros i Hi; apply Hfail; lia |].
  destruct (outcome_at operation s m) as [err |].
  - split; [| discriminate].
    destruct Hlast as [[_ Herr] | [_ (cerr & _ & Herr)]]; rewrite Herr; discriminate.
  - split; [reflexivity | intros _; exact Hlast].
Qed.

(** X3: an error of the policy is one of two: after [MaxAttempts] attempts,
    the error "operation failed after N attempts" that wraps the failure of
    the last attempt; or, after fewer attempts, the error "operation
    cancelled" that wraps the error of the context, which was done during
    the wait after the last attempt. *)
Theorem retry_error_kinds {St : Type} (cfg : Settings) (ctx : GoContext)
    (operation : St -> option error * St) (s : St) (e : error) :
  let run := retryWithExponentialBackoff cfg ctx operation s in
  run_err run = Some e ->
  exists inner,
    Unwrap e = Some inner /\
    ((run_attempts run = Z.to_nat (maxRetries_of cfg) /\
      outcome_at operation s (run_attempts run - 1) = Some inner /\
      Error e = "operation failed after " +:+ Itoa (maxRetries_of cfg)
                +:+ " attempts: " +:+ Error inner)
     \/
     ((run_attempts run < Z.to_nat (maxRetries_of cfg))%nat /\
      ctx (Z.of_nat (run_attempts run))
          (waitTime_of (retryDelay_of cfg) (Z.of_nat (run_attempts run))) = Some inner /\
      Error e = "operation cancelled: " +:+ Error inner)).
Proof.
  intros run Herr. subst run.
  destruct (retry_run cfg ctx operation s) as (m & Hm & Hatt & _ & _ & _ & Hlast).
  cbv zeta in *. rewrite Hatt. replace (S m - 1)%nat with m by lia.
  destruct (outcome_at operation s m) as [err |]; [| congruence].
  destruct Hlast as [[Hmax Hrun] | [Hlt (cerr & Hctx & Hrun)]];
    rewrite Hrun in Herr; injection Herr as <-.
  - exists err. split; [reflexivity |]. left. split; [exact Hmax |].
    split; [reflexivity |]. cbn [Error Errorf_w].
    rewrite !string_app_assoc. reflexivity.
  - exists cerr. split; [reflexivity |]. right. split; [exact Hlt |].
    replace (Z.of_nat (S m)) with (1 + Z.of_nat m) by lia.
    split; [exact Hctx | reflexivity].
Qed.

Lemma retry_error_kinds_witness :
  exists inner,
    Unwrap (Errorf_w "operation failed after 3 attempts: "
              (errorString "failure 3")) = Some inner /\
    ((3%nat = 3%nat /\
      outcome_at fails_forever O 2 = Some inner /\
      Error (Errorf_w "operation failed after 3 attempts: " (errorString "failure 3"))
        = "operation failed after 3 attempts: " +:+ Error inner)
     \/
     ((3 < 3)%nat /\
      ctx_background 3 (waitTime_of time_Second 3) = Some inner /\
      Error (Errorf_w "operation failed after 3 attempts: " (errorString "failure 3"))
        = "operation cancelled: " +:+ Error inner)).
Proof.
  exact (retry_error_kinds (settings_of 3 None) ctx_background fails_forever O
           (Errorf_w "operation failed after 3 attempts: " (errorString "failure 3"))
           eq_refl).
Defined.

(** ** The variable writer *)

Section WriterFacts.
Context {W : Type}.
Variable E : Env W.
Variable cfg : Settings.

(** An operation that makes one remote call at each invocation has left
    [k] events after [k] invocations. *)
Lemma state_at_trace (ev : Event) (operation : State W -> option error * State W) :
  (forall s, trace (snd (operation s)) = (trace s ++ [ev])%list) ->
  forall (k : nat) (s : State W),
    trace (state_at operation s k) = (trace s ++ replicate k ev)%list.
Proof.
  intros Hop. induction k as [| k IH]; intros s; cbn [state_at replicate].
  - rewrite app_nil_r. reflexivity.
  - rewrite IH, Hop, <- app_assoc. reflexivity.
Qed.

Lemma AddOrgVariable_create (org name value visibility token : string)
    (hostname : list string) (st : State W) (client : Client) :
  org <> "" -> name <> "" ->
  initializeGitHubClient E cfg
    {| Token := token; Hostname := extractHostname hostname |} = inr client ->
  AddOrgVariable E cfg org name value visibility token hostname st =
  let variable :=
    {| Name := name; Value := value;
       Visibility := Some (if String.eqb visibility "" then defaultVariableVisibility
                           else visibility) |} in
  let run :=
    retryWithDefaultContext E cfg (world st)
      (call_CreateOrgVariable E client org variable) st in
  match run_err run with
  | Some err =>
      (Some (Errorf_w ("failed to create " +:+ EntityTypeOrg +:+ " variable "
                       +:+ name +:+ ": ") err), run_state run)
  | None => (None, run_state run)
  end.
Proof.
  intros Horg Hname Hinit. unfold AddOrgVariable, addGitHubVariable.
  apply String.eqb_neq in Horg, Hname. rewrite Horg, Hname, Hinit. reflexivity.
Qed.

Lemma AddRepoVariable_create (org repo name value visibility token : string)
    (hostname : list string) (st : State W) (client : Client) (resp : Response)
    (w1 : W) :
  org <> "" -> name <> "" -> repo <> "" ->
  initializeGitHubClient E cfg
    {| Token := token; Hostname := extractHostname hostname |} = inr client ->
  Repositories_Get E client org repo (world st) = (inr resp, w1) ->
  StatusCode resp = 200 ->
  AddRepoVariable E cfg org repo name value visibility token hostname st =
  let st1 := {| world := w1; trace := (trace st ++ [EvGetRepository org repo])%list |} in
  let variable :=
    {| Name := name; Value := value;
       Visibility := Some (if String.eqb visibility "" then defaultVariableVisibility
                           else visibility) |} in
  let run :=
    retryWithDefaultContext E cfg w1
      (call_CreateRepoVariable E client org repo variable) st1 in
  match run_err run with
  | Some err =>
      (Some (Errorf_w ("failed to create " +:+ EntityTypeRepository +:+ " variable "
                       +:+ name +:+ ": ") err), run_state run)
  | None => (None, run_state run)
  end.
Proof.
  intros Horg Hname Hrepo Hinit Hget Hstatus.
  unfold AddRepoVariable, addGitHubVariable, doesRepositoryExist, call_Get, record_event.
  apply String.eqb_neq in Horg, Hname, Hrepo.
  rewrite Horg, Hname, Hrepo, Hinit, Hget. cbn [fst snd orb andb].
  rewrite Hstatus. reflexivity.
Qed.
End WriterFacts.

(** X4: the writer fails fast: with an empty organization, an empty variable
    name, an empty repository name for the repository scope, or an empty
    token, it returns an error and makes no remote call. *)
Theorem addGitHubVariable_fails_fast {W : Type} (E : Env W) (cfg : Settings)
    (entityType org repo name value visibility token : string)
    (hostname : list string) (st : State W) :
  org = "" \/ name = "" \/ (entityType = EntityTypeRepository /\ repo = "")
  \/ token = "" ->
  exists err,
    addGitHubVariable E cfg entityType org repo name value visibility token hostname st
    = (Some err, st).
Proof.
  intros Hbad. unfold addGitHubVariable.
  destruct (String.eqb_spec org "") as [| Horg]; [eexists; reflexivity |].
  destruct (String.eqb_spec name "") as [| Hname]; [eexists; reflexivity |].
  cbn [orb].
  destruct (String.eqb_spec entityType EntityTypeRepository) as [Hty | Hty];
    destruct (String.eqb_spec repo "") as [| Hrepo]; cbn [andb];
    try (eexists; reflexivity).
  - destruct Hbad as [? | [? | [[_ ?] | ->]]]; try contradiction.
    eexists. reflexivity.
  - destruct Hbad as [? | [? | [[? _] | ->]]]; try contradiction.
    eexists. reflexivity.
  - destruct Hbad as [? | [? | [[? _] | ->]]]; try contradiction.
    eexists. reflexivity.
Qed.

Lemma addGitHubVariable_fails_fast_witness :
  exists err,
    addGitHubVariable (demo_env 0) (settings_of 3 None) EntityTypeRepository "acme"
      "repoA" "VAR2" "val2" "private" "" [""] demo_state
    = (Some err, demo_state).
Proof.
  refine (addGitHubVariable_fails_fast (demo_env 0) (settings_of 3 None)
            EntityTypeRepository "acme" "repoA" "VAR2" "val2" "private" "" [""]
            demo_state _).
  right. right. right. reflexivity.
Defined.

(** X5: an organization-scope creation that passes the validation and gets
    its client makes between one and [MaxAttempts] remote calls, all of them
    the creation of the same variable: the name and the value given, and the
    visibility given or "private" when it is empty. It makes no repository
    lookup. *)
Theorem AddOrgVariable_calls {W : Type} (E : Env W) (cfg : Settings)
    (org name value visibility token : string) (hostname : list string)
    (st : State W) (client : Client) :
  org <> "" -> name <> "" ->
  initializeGitHubClient E cfg
    {| Token := token; Hostname := extractHostname hostname |} = inr client ->
  let variable :=
    {| Name := name; Value := value;
       Visibility := Some (if String.eqb visibility "" then "private" else visibility) |} in
  exists n : nat,
    (1 <= n <= Z.to_nat (maxRetries_of cfg))%nat /\
    trace (snd (AddOrgVariable E cfg org name value visibility token hostname st))
      = (trace st ++ replicate n (EvCreateOrgVariable org variable))%list.
Proof.
  intros Horg Hname Hinit variable.
  rewrite (AddOrgVariable_create E cfg org name value visibility token hostname st
             client Horg Hname Hinit).
  cbv zeta. unfold retryWithDefaultContext.
  match goal with
  | |- context [retryWithExponentialBackoff cfg ?c ?op st] =>
      destruct (retry_run cfg c op st) as (m & Hm & Hatt & Hst & _);
      cbv zeta in Hatt, Hst;
      exists (S m); split; [lia |];
      destruct (run_err (retryWithExponentialBackoff cfg c op st)); cbn [snd];
      rewrite Hst; apply state_at_trace; intros s; reflexivity
  end.
Qed.

Lemma AddOrgVariable_calls_witness :
  exists n : nat,
    (1 <= n <= 3)%nat /\
    trace (snd (AddOrgVariable (demo_env 0) (settings_of 3 None) "acme" "VAR1" "val1"
                  "" "t0ken" [""] demo_state))
      = (trace demo_state
         ++ replicate n (EvCreateOrgVariable "acme"
                           {| Name := "VAR1"; Value := "val1";
                              Visibility := Some "private" |}))%list.
Proof.
  refine (AddOrgVariable_calls (demo_env 0) (settings_of 3 None) "acme" "VAR1" "val1"
            "" "t0ken" [""] demo_state _ _ _ _).
  - discriminate.
  - discriminate.
  - reflexivity.
Defined.

(** X6: a repository-scope creation is attempted only after a lookup that
    succeeded with status 200. When the lookup succeeds with another status,
    the writer returns the repository-not-found error after the lookup alone;
    when it succeeds with status 200, the lookup is followed by between one
    and [MaxAttempts] creations of the same variable. *)
Theorem AddRepoVariable_calls {W : Type} (E : Env W) (cfg : Settings)
    (org repo name value visibility token : string) (hostname : list string)
    (st : State W) (client : Client) (resp : Response) (w1 : W) :
  org <> "" -> name <> "" -> repo <> "" ->
  initializeGitHubClient E cfg
    {| Token := token; Hostname := extractHostname hostname |} = inr client ->
  Repositories_Get E client org repo (world st) = (inr resp, w1) ->
  let r := AddRepoVariable E cfg org repo name value visibility token hostname st in
  let variable :=
    {| Name := name; Value := value;
       Visibility := Some (if String.eqb visibility "" then "private" else visibility) |} in
  (StatusCode resp <> 200 ->
   r = (Some (repositoryNotFound repo org),
        {| world := w1; trace := (trace st ++ [EvGetRepository org repo])%list |})) /\
  (StatusCode resp = 200 ->
   exists n : nat,
     (1 <= n <= Z.to_nat (maxRetries_of cfg))%nat /\
     trace (snd r) =
       (trace st ++ EvGetRepository org repo
                    :: replicate n (EvCreateRepoVariable org repo variable))%list).
Proof.
  intros Horg Hname Hrepo Hinit Hget r variable. subst r. split.
  - intros Hstatus.
    unfold AddRepoVariable, addGitHubVariable, doesRepositoryExist, call_Get,
      record_event.
    apply String.eqb_neq in Horg, Hname, Hrepo. apply Z.eqb_neq in Hstatus.
    rewrite Horg, Hname, Hrepo, Hinit, Hget. cbn [fst snd orb andb].
    rewrite Hstatus. reflexivity.
  - intros Hstatus.
    rewrite (AddRepoVariable_create E cfg org repo name value visibility token
               hostname st client resp w1 Horg Hname Hrepo Hinit Hget Hstatus).
    cbv zeta. unfold retryWithDefaultContext.
    match goal with
    | |- context [retryWithExponentialBackoff cfg ?c ?op ?s1] =>
        destruct (retry_run cfg c op s1) as (m & Hm & Hatt & Hst & _);
        cbv zeta in Hatt, Hst;
        exists (S m); split; [lia |];
        destruct (run_err (retryWithExponentialBackoff cfg c op s1)); cbn [snd];
        rewrite Hst;
        rewrite (state_at_trace (EvCreateRepoVariable org repo variable) op
                   (fun s => eq_refl) (S m) s1);
        cbn [trace]; rewrite <- app_assoc; reflexivity
    end.
Qed.

Lemma AddRepoVariable_calls_witness :
  let r :=
    AddRepoVariable (demo_env 0) (settings_of 3 None) "acme" "repoA" "VAR2" "val2"
      "" "t0ken" [""] demo_state in
  (200 <> 200 ->
   r = (Some (repositoryNotFound "repoA" "acme"),
        {| world := 1%nat; trace := [EvGetRepository "acme" "repoA"] |})) /\
  (200 = 200 ->
   exists n : nat,
     (1 <= n <= 3)%nat /\
     trace (snd r) =
       [EvGetRepository "acme" "repoA"]
       ++ replicate n (EvCreateRepoVariable "acme" "repoA"
                         {| Name := "VAR2"; Value := "val2";
                            Visibility := Some "private" |}))%list.
Proof.
  refine (AddRepoVariable_calls (demo_env 0) (settings_of 3 None) "acme" "repoA"
            "VAR2" "val2" "" "t0ken" [""] demo_state
            {| client_config := {| Token := "t0ken"; Hostname := "" |};
               client_proxy := loadProxyConfigFromEnv (settings_of 3 None) |}
            {| StatusCode := 200; NextPage := 0 |} 1%nat _ _ _ _ _).
  - discriminate.
  - discriminate.
  - discriminate.
  - reflexivity.
  - reflexivity.
Defined.

(** X7: when every creation call fails and the context is not done, an
    organization-scope creation makes [MaxAttempts] calls and returns the
    error "failed to create organization variable NAME: " that wraps the error
    "operation failed after N attempts: " of the policy, which wraps the
    failure of the last of these calls, the one made after [MaxAttempts - 1]
    others; the text of the error ends with the text of that failure. *)
Theorem AddOrgVariable_exhausted {W : Type} (E : Env W) (cfg : Settings)
    (org name value visibility token : string) (hostname : list string)
    (st : State W) (client : Client) :
  org <> "" -> name <> "" ->
  initializeGitHubClient E cfg
    {| Token := token; Hostname := extractHostname hostname |} = inr client ->
  let variable :=
    {| Name := name; Value := value;
       Visibility := Some (if String.eqb visibility "" then "private" else visibility) |} in
  (forall w, fst (Actions_CreateOrgVariable E client org variable w) <> None) ->
  (forall attempt d, longLivedContext E (world st) attempt d = None) ->
  let r := AddOrgVariable E cfg org name value visibility token hostname st in
  let before_last :=
    state_at (call_CreateOrgVariable E client org variable) st
      (Z.to_nat (maxRetries_of cfg) - 1) in
  exists last,
    fst (Actions_CreateOrgVariable E client org variable (world before_last))
      = Some last /\
    trace before_last
      = (trace st ++ replicate (Z.to_nat (maxRetries_of cfg) - 1)
                       (EvCreateOrgVariable org variable))%list /\
    fst r =
      Some (Errorf_w ("failed to create organization variable " +:+ name +:+ ": ")
              (Errorf_w ("operation failed after " +:+ Itoa (maxRetries_of cfg)
                         +:+ " attempts: ") last)) /\
    (forall err, fst r = Some err ->
       Error err = "failed to create organization variable " +:+ name
                   +:+ ": operation failed after " +:+ Itoa (maxRetries_of cfg)
                   +:+ " attempts: " +:+ Error last) /\
    trace (snd r)
      = (trace st ++ replicate (Z.to_nat (maxRetries_of cfg))
                       (EvCreateOrgVariable org variable))%list.
Proof.
  intros Horg Hname Hinit variable Hfail Hctx r before_last. subst r before_last.
  rewrite (AddOrgVariable_create E cfg org name value visibility token hostname st
             client Horg Hname Hinit).
  cbv zeta. unfold retryWithDefaultContext.
  match goal with
  | |- context [retryWithExponentialBackoff cfg _ ?op0 st] =>
      change op0 with (call_CreateOrgVariable E client org variable)
  end.
  set (op := call_CreateOrgVariable E client org variable).
  destruct (retry_run cfg (longLivedContext E (world st)) op st)
    as (m & Hm & Hatt & Hst & _ & _ & Hlast).
  cbv zeta in Hatt, Hst, Hlast.
  pose proof (state_at_trace (EvCreateOrgVariable org variable) op (fun s => eq_refl))
    as Htr.
  assert (Hout : outcome_at op st m <> None) by apply Hfail.
  destruct (outcome_at op st m) as [last |] eqn:Hlastcall; [| congruence].
  destruct Hlast as [[Hmax Hrun] | [_ (cerr & Hc & _)]];
    [| rewrite Hctx in Hc; discriminate Hc].
  rewrite Hrun. replace (Z.to_nat (maxRetries_of cfg) - 1)%nat with m by lia.
  exists last. cbn [fst snd]. split; [exact Hlastcall |].
  split; [apply Htr |]. split; [reflexivity |]. split.
  - intros err Herr. injection Herr as <-. cbn [Error Errorf_w].
    rewrite !string_app_assoc. reflexivity.
  - rewrite Hst, <- Hmax. apply Htr.
Qed.

Lemma AddOrgVariable_exhausted_witness :
  let variable := {| Name := "VAR1"; Value := "v"; Visibility := Some "all" |} in
  let r :=
    AddOrgVariable failing_create_env (settings_of 3 None) "acme" "VAR1" "v" "all"
      "t0ken" [""] demo_state in
  exists last,
    fst (Actions_CreateOrgVariable failing_create_env
           {| client_config := {| Token := "t0ken"; Hostname := "" |};
              client_proxy := loadProxyConfigFromEnv (settings_of 3 None) |}
           "acme" variable 2%nat) = Some last /\
    [EvCreateOrgVariable "acme" variable; EvCreateOrgVariable "acme" variable]
      = (trace demo_state ++ replicate 2 (EvCreateOrgVariable "acme" variable))%list /\
    fst r =
      Some (Errorf_w "failed to create organization variable VAR1: "
              (Errorf_w "operation failed after 3 attempts: " last)) /\
    (forall err, fst r = Some err ->
       Error err = "failed to create organization variable VAR1: operation failed after 3 attempts: "
                   +:+ Error last) /\
    trace (snd r)
      = (trace demo_state ++ replicate 3 (EvCreateOrgVariable "acme" variable))%list.
Proof.
  refine (AddOrgVariable_exhausted failing_create_env (settings_of 3 None) "acme"
            "VAR1" "v" "all" "t0ken" [""] demo_state
            {| client_config := {| Token := "t0ken"; Hostname := "" |};
               client_proxy := loadProxyConfigFromEnv (settings_of 3 None) |}
            _ _ _ _ _).
  - discriminate.
  - discriminate.
  - reflexivity.
  - intros w. discriminate.
  - intros attempt d. reflexivity.
Defined.

(** In this run the three creation calls fail with three different errors,
    and the error returned carries the third. *)
Example AddOrgVariable_exhausted_last_of_three :
  Error <$> fst (AddOrgVariable failing_create_env (settings_of 3 None) "acme"
                   "VAR1" "v" "all" "t0ken" [""] demo_state)
  = Some "failed to create organization variable VAR1: operation failed after 3 attempts: 500 at call 3".
Proof. vm_compute. reflexivity. Qed.

(** ** The variable reader *)

(** X8: with an empty token nothing is asked of the remote side: the
    reader of the variables, the listing of the repositories and the
    existence check each return an error that comes from "GitHub token is
    required", and leave the state as it was. *)
Theorem empty_token_no_remote_call {W : Type} (E : Env W) (cfg : Settings)
    (entityType org repo : string) (hostname : list string) (st : State W)
    (fuel : nat) :
  let tokenErr :=
    Errorf_w "failed to initialize GitHub client: "
      (errorString "GitHub token is required") in
  (exists err, fetchGitHubVariables E cfg entityType org repo "" hostname st
               = (inl err, st)) /\
  FetchAllRepositories E cfg fuel org "" hostname st = Some (inl tokenErr, st) /\
  doesRepositoryExist E cfg org repo "" hostname st = ((false, Some tokenErr), st).
Proof.
  cbv zeta. split; [| split; reflexivity].
  unfold fetchGitHubVariables.
  destruct (String.eqb org ""); [eexists; reflexivity |].
  destruct (String.eqb entityType EntityTypeRepository && String.eqb repo "");
    eexists; reflexivity.
Qed.

Section ReaderRuns.
Context {W : Type}.
Variable E : Env W.
Variable cfg : Settings.

(** The list call that [fetchGitHubVariables] makes in the world [w]. *)
Lemma fetchGitHubVariables_first_call (entityType org repo token : string)
    (hostname : list string) (st : State W) (client : Client)
    (payload : option ActionsVariables) (w1 : W) :
  org <> "" ->
  (entityType = EntityTypeRepository -> repo <> "") ->
  initializeGitHubClient E cfg
    {| Token := token; Hostname := extractHostname hostname |} = inr client ->
  (if String.eqb entityType EntityTypeOrg
   then Actions_ListOrgVariables E client org (world st)
   else Actions_ListRepoVariables E client org repo (world st))
    = ((payload, None), w1) ->
  fetchGitHubVariables E cfg entityType org repo token hostname st =
  (match payload with
   | Some variables =>
       inr (omap (fun variable =>
                    parseGitHubVariable variable
                      (if String.eqb entityType EntityTypeRepository then repo
                       else entityType))
                 (Variables variables))
   | None =>
       inl (errorString ("no variables data returned for " +:+ entityType
                         +:+ " " +:+ org))
   end,
   {| world := w1;
      trace := (trace st ++ [if String.eqb entityType EntityTypeOrg
                             then EvListOrgVariables org
                             else EvListRepoVariables org repo])%list |}).
Proof.
  intros Horg Hrepo Hinit Hcall. unfold fetchGitHubVariables.
  apply String.eqb_neq in Horg. rewrite Horg.
  assert (Hv : String.eqb entityType EntityTypeRepository && String.eqb repo "" = false).
  { destruct (String.eqb_spec entityType EntityTypeRepository) as [Hty | _];
      [| reflexivity].
    apply Hrepo, String.eqb_neq in Hty. rewrite Hty. reflexivity. }
  rewrite Hv, Hinit. cbv zeta.
  unfold retryWithDefaultContext, retryWithExponentialBackoff.
  pose proof (maxRetries_of_pos cfg) as Hpos.
  destruct (Z.to_nat (maxRetries_of cfg)) as [| r] eqn:Hmax; [lia |].
  cbn [retry_loop fst snd].
  unfold call_ListOrgVariables, call_ListRepoVariables, record_event.
  destruct (String.eqb entityType EntityTypeOrg); rewrite Hcall; cbn [fst snd run_err run_state];
    destruct payload; reflexivity.
Qed.
End ReaderRuns.

(** X9: when the first list call succeeds, the reader makes this call
    alone. A payload that is there gives the records of its variables that
    are not nil and have a name, in order, an empty list of variables giving
    an empty list of records without an error; a nil payload gives the error
    "no variables data returned for", followed by the entity type and the name
    of the organization. *)
Theorem FetchRepoVariables_first_call {W : Type} (E : Env W) (cfg : Settings)
    (org repo token : string) (hostname : list string) (st : State W)
    (client : Client) (payload : option ActionsVariables) (w1 : W) :
  org <> "" -> repo <> "" ->
  initializeGitHubClient E cfg
    {| Token := token; Hostname := extractHostname hostname |} = inr client ->
  Actions_ListRepoVariables E client org repo (world st) = ((payload, None), w1) ->
  FetchRepoVariables E cfg org repo token hostname st =
  (match payload with
   | Some variables =>
       inr (omap (fun variable => parseGitHubVariable variable repo)
                 (Variables variables))
   | None =>
       inl (errorString ("no variables data returned for repository " +:+ org))
   end,
   {| world := w1; trace := (trace st ++ [EvListRepoVariables org repo])%list |}).
Proof.
  intros Horg Hrepo Hinit Hcall. unfold FetchRepoVariables.
  rewrite (fetchGitHubVariables_first_call E cfg EntityTypeRepository org repo token
             hostname st client payload w1 Horg (fun _ => Hrepo) Hinit Hcall).
  reflexivity.
Qed.

Lemma FetchRepoVariables_first_call_witness :
  FetchRepoVariables (demo_env 0) (settings_of 3 None) "acme" "repoA" "t0ken" [""]
    demo_state
  = (inr [], {| world := 1%nat; trace := [EvListRepoVariables "acme" "repoA"] |}).
Proof.
  refine (FetchRepoVariables_first_call (demo_env 0) (settings_of 3 None) "acme"
            "repoA" "t0ken" [""] demo_state
            {| client_config := {| Token := "t0ken"; Hostname := "" |};
               client_proxy := loadProxyConfigFromEnv (settings_of 3 None) |}
            (Some {| TotalCount := 0; Variables := [] |}) 1%nat _ _ _ _).
  - discriminate.
  - discriminate.
  - reflexivity.
  - reflexivity.
Defined.

Lemma parseGitHubVariable_shape (variable : option ActionsVariable) (scope : string)
    (record : gmap string string) :
  parseGitHubVariable variable scope = Some record ->
  exists v,
    variable = Some v /\ Name v <> "" /\
    record !! "Name" = Some (Name v) /\
    record !! "Value" = Some (Value v) /\
    record !! "Scope" = Some scope /\
    record !! "Visibility" = Some (default defaultVariableVisibility (Visibility v)) /\
    dom record = ({[ "Name"; "Value"; "Scope"; "Visibility" ]} : gset string).
Proof.
  unfold parseGitHubVariable.
  destruct variable as [v |]; [| discriminate].
  destruct (String.eqb_spec (Name v) "") as [| Hne]; [discriminate |].
  intros Hrec. exists v. split; [reflexivity |]. split; [exact Hne |].
  destruct (Visibility v) as [vis |]; injection Hrec as <-; cbn [default];
    repeat split;
    try (rewrite ?lookup_insert_eq; rewrite ?lookup_insert_ne by discriminate;
         rewrite ?lookup_insert_eq; rewrite ?lookup_insert_ne by discriminate;
         rewrite ?lookup_insert_eq; rewrite ?lookup_singleton_eq; reflexivity);
    rewrite !dom_insert_L, dom_singleton_L; set_solver.
Qed.

(** X10: every record that the reader returns has the four keys Name,
    Value, Scope and Visibility and no other; its scope is the name of the
    repository for the repository entity and the entity type otherwise, and
    its visibility is never missing. *)
Theorem reader_record_shape {W : Type} (E : Env W) (cfg : Settings)
    (entityType org repo token : string) (hostname : list string) (st : State W)
    (records : list (gmap string string)) :
  fst (fetchGitHubVariables E cfg entityType org repo token hostname st) = inr records ->
  Forall (fun record : gmap string string =>
            dom record = ({[ "Name"; "Value"; "Scope"; "Visibility" ]} : gset string) /\
            record !! "Scope"
              = Some (if String.eqb entityType EntityTypeRepository then repo
                      else entityType))
         records.
Proof.
  intros Hfetch. unfold fetchGitHubVariables in Hfetch.
  destruct (String.eqb org ""); [discriminate Hfetch |].
  destruct (String.eqb entityType EntityTypeRepository && String.eqb repo "");
    [discriminate Hfetch |].
  destruct (initializeGitHubClient E cfg _) as [e | client]; [discriminate Hfetch |].
  cbv zeta in Hfetch.
  destruct (run_err _) as [e |]; [discriminate Hfetch |].
  destruct (snd (run_state _)) as [variables |]; [| discriminate Hfetch].
  cbn [fst] in Hfetch. injection Hfetch as <-.
  induction (Variables variables) as [| variable rest IH]; cbn [omap list_omap].
  - constructor.
  - destruct (parseGitHubVariable variable _) as [record |] eqn:Hp; cbn; [| exact IH].
    constructor; [| exact IH].
    apply parseGitHubVariable_shape in Hp as (v & _ & _ & _ & _ & Hscope & _ & Hdom).
    split; assumption.
Qed.

Lemma reader_record_shape_witness :
  Forall (fun record : gmap string string =>
            dom record = ({[ "Name"; "Value"; "Scope"; "Visibility" ]} : gset string) /\
            record !! "Scope" = Some "organization")
    [ ({[ "Name" := "VAR1"; "Value" := "val1"; "Scope" := "organization";
          "Visibility" := "all" ]} : gmap string string);
      {[ "Name" := "VAR2"; "Value" := "val2"; "Scope" := "organization";
         "Visibility" := "private" ]} ].
Proof.
  refine (reader_record_shape (demo_env 0) (settings_of 3 None) EntityTypeOrg "acme"
            "" "t0ken" [""] demo_state _ _).
  vm_compute. reflexivity.
Defined.

(** ** The listing of the repositories *)

(** X11: the listing has no bound of its own: against a remote side whose
    every response has a payload, no error and a next page, the loop is still
    running after any number of iterations. *)
Theorem listPaginatedRepositories_endless {St : Type}
    (fetch : RepositoryListByOrgOptions -> St ->
             (option (list (option Repository)) * option Response * option error) * St)
    (s : St) (fuel : nat) :
  (forall opts s0, exists repos r s1,
      fetch opts s0 = (Some repos, Some r, None, s1) /\ NextPage r <> 0) ->
  listPaginatedRepositories fetch fuel s = None.
Proof.
  intros Hnext. unfold listPaginatedRepositories.
  generalize {| Page := 0; PerPage := 100 |} as opts.
  generalize (@nil string) as acc. revert s.
  induction fuel as [| fuel IH]; intros s acc opts; cbn [paginate_loop];
    [reflexivity |].
  destruct (Hnext opts s) as (repos & r & s1 & Hf & Hr). rewrite Hf.
  destruct (Z.eqb_spec (NextPage r) 0) as [| _]; [contradiction |]. apply IH.
Qed.

Lemma listPaginatedRepositories_endless_witness :
  listPaginatedRepositories endless_listing 50 O = None.
Proof.
  refine (listPaginatedRepositories_endless endless_listing O 50 _).
  intros opts s0. eexists _, _, _. split; [reflexivity |].
  cbn [NextPage]. lia.
Defined.

Section ListingFacts.
Context {W : Type}.
Variable E : Env W.
Variable cfg : Settings.

Lemma paginate_loop_requests (client : Client) (org : string) (fuel : nat) :
  forall (page : Z) (allResources : list string) (st : State W) result (st' : State W),
    paginate_loop (fun opts s => call_ListByOrg E client org opts s) fuel
      {| Page := page; PerPage := 100 |} allResources st = Some (result, st') ->
    exists pages : list Z,
      (length pages < fuel)%nat /\
      Forall (fun p => p <> 0) pages /\
      trace st' =
        (trace st ++ map (fun p => EvListByOrg org {| Page := p; PerPage := 100 |})
                         (page :: pages))%list.
Proof.
  induction fuel as [| fuel IH]; intros page acc st result st'; cbn [paginate_loop];
    [discriminate |].
  unfold call_ListByOrg at 1. unfold record_event.
  destruct (Repositories_ListByOrg E client org _ (world st))
    as [[[repos resp] err] w1]; cbn [fst snd].
  assert (Hone : forall r0 : (error + list string),
            Some (r0, {| world := w1;
                         trace := (trace st ++ [EvListByOrg org
                                                 {| Page := page; PerPage := 100 |}])%list |})
            = Some (result, st') ->
            exists pages : list Z,
              (length pages < S fuel)%nat /\ Forall (fun p => p <> 0) pages /\
              trace st' =
                (trace st ++ map (fun p => EvListByOrg org {| Page := p; PerPage := 100 |})
                                 (page :: pages))%list).
  { intros r0 H. injection H as _ <-. exists []. cbn. split; [lia |].
    split; [constructor | reflexivity]. }
  destruct err as [err |]; [destruct repos; apply Hone |].
  destruct repos as [repos |]; [| apply Hone].
  destruct resp as [r |]; [| apply Hone].
  destruct (Z.eqb_spec (NextPage r) 0) as [| Hnext]; [apply Hone |].
  cbn [PerPage]. intros H. apply IH in H as (pages & Hlen & Hnz & Htr).
  exists (NextPage r :: pages). cbn [length]. split; [lia |].
  split; [constructor; assumption |].
  rewrite Htr. cbn [trace map]. rewrite <- app_assoc. reflexivity.
Qed.
End ListingFacts.

(** X12: a listing of the repositories that ends has asked for pages of 100
    items only, for the page 0 first and then for pages that are not 0, in at
    most as many requests as the loop had iterations; it has made no other
    remote call. *)
Theorem FetchAllRepositories_requests {W : Type} (E : Env W) (cfg : Settings)
    (fuel : nat) (org token : string) (hostname : list string) (st : State W)
    (names : list string) (st' : State W) :
  FetchAllRepositories E cfg fuel org token hostname st = Some (inr names, st') ->
  exists pages : list Z,
    (length pages < fuel)%nat /\
    Forall (fun p => p <> 0) pages /\
    trace st' =
      (trace st ++ map (fun p => EvListByOrg org {| Page := p; PerPage := 100 |})
                       (0 :: pages))%list.
Proof.
  unfold FetchAllRepositories, listPaginatedRepositories.
  destruct (initializeGitHubClient E cfg _) as [e | client]; [discriminate |].
  apply paginate_loop_requests.
Qed.

Lemma FetchAllRepositories_requests_witness :
  exists pages : list Z,
    (length pages < 3)%nat /\
    Forall (fun p => p <> 0) pages /\
    [EvListByOrg "acme" {| Page := 0; PerPage := 100 |};
     EvListByOrg "acme" {| Page := 2; PerPage := 100 |}] =
      (trace demo_state
       ++ map (fun p => EvListByOrg "acme" {| Page := p; PerPage := 100 |})
              (0 :: pages))%list.
Proof.
  exact (FetchAllRepositories_requests (demo_env 0) (settings_of 3 None) 3 "acme"
           "t0ken" [""] demo_state ["repoA"; "repoB"]
           {| world := 2%nat;
              trace := [EvListByOrg "acme" {| Page := 0; PerPage := 100 |};
                        EvListByOrg "acme" {| Page := 2; PerPage := 100 |}] |}
           eq_refl).
Defined.

(** ** The sync orchestrator *)

Section SyncFacts.
Context {W : Type}.
Variable E : Env W.
Variable cfg : Settings.

(** The counters after a record, whatever the record. *)
Lemma sync_record_counts (targetOrg targetToken hostname : string) (stats : Stats)
    (record : list string) (st : State W) :
  let stats' := fst (sync_record E cfg targetOrg targetToken hostname stats record st) in
  total stats' = total stats + 1 /\
  succeeded stats' + failed stats' + skipped stats'
    = succeeded stats + failed stats + skipped stats + 1 /\
  succeeded stats <= succeeded stats' /\
  failed stats <= failed stats' /\
  skipped stats <= skipped stats'.
Proof.
  unfold sync_record.
  destruct (Z.of_nat (length record) <? 4); [cbn; lia |].
  cbv zeta. destruct (String.eqb (nth 2 record "") "organization").
  - destruct (AddOrgVariable E cfg _ _ _ _ _ _ st) as [[err |] st']; cbn; lia.
  - destruct (AddRepoVariable E cfg _ _ _ _ _ _ _ st) as [[err |] st'];
      [destruct (String.eqb (Error err) _) |]; cbn; lia.
Qed.

Lemma sync_loop_counts (targetOrg targetToken hostname : string)
    (records : list (list string)) :
  forall (stats : Stats) (st : State W),
    let stats' := fst (sync_loop E cfg targetOrg targetToken hostname records stats st) in
    total stats' = total stats + Z.of_nat (length records) /\
    succeeded stats' + failed stats' + skipped stats'
      = succeeded stats + failed stats + skipped stats + Z.of_nat (length records) /\
    succeeded stats <= succeeded stats' /\
    failed stats <= failed stats' /\
    skipped stats <= skipped stats'.
Proof.
  induction records as [| record rest IH]; intros stats st; cbn [sync_loop length].
  - cbn. lia.
  - pose proof (sync_record_counts targetOrg targetToken hostname stats record st) as H1.
    cbv zeta in *.
    specialize (IH (fst (sync_record E cfg targetOrg targetToken hostname stats record st))
                   (snd (sync_record E cfg targetOrg targetToken hostname stats record st))).
    lia.
Qed.
End SyncFacts.

(** X13: when [SyncVariables] gets to its summary, the counters add up:
    the total is the number of rows after the header, it is the sum of the
    succeeded, failed and skipped counters, none of which is negative; and
    the command exits with status 1 when the failed counter is positive and
    returns nil otherwise, the skipped records not counting as failures. *)
Theorem SyncVariables_summary {W : Type} (E : Env W) (cfg : Settings)
    (st : State W) (stats : Stats) :
  snd (fst (SyncVariables E cfg st)) = Some stats ->
  exists header rest,
    csv_ReadAll E (setting_file cfg) = inr (header :: rest) /\
    total stats = Z.of_nat (length rest) /\
    total stats = succeeded stats + failed stats + skipped stats /\
    0 <= succeeded stats /\ 0 <= failed stats /\ 0 <= skipped stats /\
    fst (fst (SyncVariables E cfg st))
      = (if 0 <? failed stats then Exited 1 else Returned None).
Proof.
  unfold SyncVariables. cbv zeta.
  destruct (String.eqb (setting_file cfg) "" || String.eqb (target_organization cfg) ""
            || String.eqb (target_token cfg) ""); [discriminate |].
  destruct (os_Open E (setting_file cfg)); [discriminate |].
  destruct (csv_ReadAll E (setting_file cfg)) as [err | [| header rest]];
    [discriminate | discriminate |].
  pose proof (sync_loop_counts E cfg (target_organization cfg) (target_token cfg)
                (target_hostname cfg) rest
                {| total := 0; succeeded := 0; failed := 0; skipped := 0 |} st) as Hc.
  cbv zeta in Hc. cbn [total succeeded failed skipped] in Hc.
  set (final := fst (sync_loop E cfg _ _ _ rest _ st)) in *.
  intros Hstats. exists header, rest. split; [reflexivity |].
  assert (Hs : stats = final).
  { destruct (failed final >? 0); cbn [fst snd] in Hstats; congruence. }
  subst stats. repeat split; try lia.
  rewrite Z.gtb_ltb. destruct (0 <? failed final); reflexivity.
Qed.

Lemma SyncVariables_summary_witness :
  exists header rest,
    csv_ReadAll (demo_env 0) "acme_variables.csv" = inr (header :: rest) /\
    2 = Z.of_nat (length rest) /\
    2 = 2 + 0 + 0 /\
    0 <= 2 /\ 0 <= 0 /\ 0 <= 0 /\
    fst (fst (SyncVariables (demo_env 0) (sync_settings "acme_variables.csv") demo_state))
      = Returned None.
Proof.
  exact (SyncVariables_summary (demo_env 0) (sync_settings "acme_variables.csv")
           demo_state {| total := 2; succeeded := 2; failed := 0; skipped := 0 |}
           eq_refl).
Defined.

(** X14: records with fewer than four columns are skipped without a remote
    call: over such records the loop changes nothing but the total and the
    skipped counter, which both go up by the number of records. *)
Theorem sync_loop_short_records {W : Type} (E : Env W) (cfg : Settings)
    (targetOrg targetToken hostname : string) (records : list (list string))
    (stats : Stats) (st : State W) :
  Forall (fun record : list string => (length record < 4)%nat) records ->
  sync_loop E cfg targetOrg targetToken hostname records stats st =
  ({| total := total stats + Z.of_nat (length records);
      succeeded := succeeded stats; failed := failed stats;
      skipped := skipped stats + Z.of_nat (length records) |}, st).
Proof.
  intros Hshort. revert stats.
  induction Hshort as [| record rest Hlen _ IH]; intros stats; cbn [sync_loop length].
  - destruct stats. cbn. rewrite !Z.add_0_r. reflexivity.
  - unfold sync_record at 1 2.
    destruct (Z.ltb_spec (Z.of_nat (length record)) 4) as [_ | ?]; [| lia].
    cbn [fst snd]. rewrite IH. cbn [incr_skipped incr_total total succeeded failed skipped].
    do 2 f_equal; lia.
Qed.

Lemma sync_loop_short_records_witness :
  sync_loop (demo_env 0) (settings_of 3 None) "acme" "t0ken" ""
    [["VAR3"; "val3"; "repoA"]; []]
    {| total := 0; succeeded := 0; failed := 0; skipped := 0 |} demo_state =
  ({| total := 2; succeeded := 0; failed := 0; skipped := 2 |}, demo_state).
Proof.
  refine (sync_loop_short_records (demo_env 0) (settings_of 3 None) "acme" "t0ken" ""
            [["VAR3"; "val3"; "repoA"]; []]
            {| total := 0; succeeded := 0; failed := 0; skipped := 0 |} demo_state _).
  repeat constructor.
Defined.

(** ** The export orchestrator *)

Section ExportFacts.
Context {W : Type}.
Variable E : Env W.
Variable cfg : Settings.

Lemma export_write_loop_columns (allVariables : list (gmap string string)) :
  forall (variablesWritten : Z) (st : State W),
  exists rows,
    trace (snd (export_write_loop E allVariables variablesWritten st))
      = (trace st ++ map EvCsvWrite rows)%list /\
    Forall (fun row : list string => length row = 4%nat) rows.
Proof.
  induction allVariables as [| variable rest IH]; intros written st; cbn [export_write_loop].
  - exists []. cbn. rewrite app_nil_r. split; [reflexivity | constructor].
  - destruct (variable !! "Name") as [name |]; [| apply IH].
    destruct (String.eqb name ""); cbn [negb]; [apply IH |].
    unfold call_csv_Write, record_event.
    destruct (csv_Write E _ (world st)) as [[err |] w'] eqn:Hw; cbn [fst snd].
    + eexists [_]. cbn [snd trace map]. split; [reflexivity |].
      constructor; [reflexivity | constructor].
    + match goal with
      | |- context [export_write_loop E rest ?n ?s] =>
          destruct (IH n s) as (rows & Htr & Hrows)
      end.
      eexists (_ :: rows). rewrite Htr. cbn [trace map]. rewrite <- app_assoc.
      split; [reflexivity |]. constructor; [reflexivity | exact Hrows].
Qed.

Lemma csv_rows_map_EvCsvWrite (rows : list (list string)) :
  csv_rows (map EvCsvWrite rows) = rows.
Proof.
  induction rows as [| row rows IH]; [reflexivity |].
  cbn [map]. change (csv_rows (EvCsvWrite row :: map EvCsvWrite rows))
    with (row :: csv_rows (map EvCsvWrite rows)).
  rewrite IH. reflexivity.
Qed.

(** When every call that lists variables fails, the reader fails. *)
Lemma fetchGitHubVariables_outage (entityType org repo token : string)
    (hostname : list string) (st : State W) :
  (forall client o w, snd (fst (Actions_ListOrgVariables E client o w)) <> None) ->
  (forall client o r w, snd (fst (Actions_ListRepoVariables E client o r w)) <> None) ->
  exists err,
    fst (fetchGitHubVariables E cfg entityType org repo token hostname st) = inl err.
Proof.
  intros Horg Hrepo. unfold fetchGitHubVariables.
  destruct (String.eqb org ""); [eexists; reflexivity |].
  destruct (String.eqb entityType EntityTypeRepository && String.eqb repo "");
    [eexists; reflexivity |].
  destruct (initializeGitHubClient E cfg _) as [e | client]; [eexists; reflexivity |].
  cbv zeta. unfold retryWithDefaultContext.
  match goal with
  | |- context [retryWithExponentialBackoff cfg ?c ?op ?s0] =>
      destruct (retry_run cfg c op s0) as (m & _ & _ & _ & _ & _ & Hlast);
      cbv zeta in Hlast;
      assert (Hout : outcome_at op s0 m <> None);
      [| destruct (outcome_at op s0 m) as [err |]; [| congruence];
         destruct Hlast as [[_ Hrun] | [_ (cerr & _ & Hrun)]]; rewrite Hrun;
         eexists; reflexivity]
  end.
  unfold outcome_at. cbn [fst snd].
  destruct (String.eqb entityType EntityTypeOrg);
    unfold call_ListOrgVariables, call_ListRepoVariables, record_event; cbn [fst snd];
    [apply Horg | apply Hrepo].
Qed.

Lemma export_repos_loop_outage (organization token hostname : string)
    (repos : list string) :
  (forall client o w, snd (fst (Actions_ListOrgVariables E client o w)) <> None) ->
  (forall client o r w, snd (fst (Actions_ListRepoVariables E client o r w)) <> None) ->
  forall allVariables successful failed (st : State W),
    fst (fst (fst (export_repos_loop E cfg organization token hostname repos
                     allVariables successful failed st))) = allVariables.
Proof.
  intros Horg Hrepo.
  induction repos as [| repo rest IH]; intros allVariables successful failed st;
    cbn [export_repos_loop]; [reflexivity |].
  destruct (fetchGitHubVariables_outage EntityTypeRepository organization repo token
              [hostname] st Horg Hrepo) as [err Herr].
  unfold FetchRepoVariables.
  destruct (fetchGitHubVariables E cfg EntityTypeRepository organization repo token
              [hostname] st) as [[e | repoVariables] st1]; cbn [fst] in Herr;
    [apply IH | discriminate Herr].
Qed.
End ExportFacts.

(** X15: whatever [ExportVariables] hands to the CSV writer starts with the
    header row Name, Value, Scope, Visibility, and every row after it has
    four columns; a run that writes no header writes nothing. *)
Theorem ExportVariables_header_first {W : Type} (E : Env W) (cfg : Settings)
    (fuel : nat) (st : State W) (t : Termination) (st' : State W) :
  ExportVariables E cfg fuel st = Some (t, st') ->
  exists evs,
    trace st' = (trace st ++ evs)%list /\
    (csv_rows evs = [] \/
     exists rows,
       csv_rows evs = ["Name"; "Value"; "Scope"; "Visibility"] :: rows /\
       Forall (fun row : list string => length row = 4%nat) rows).
Proof.
  assert (Hquiet : forall st1 st2 : State W, writes_no_row st1 st2 ->
            exists evs, trace st2 = (trace st1 ++ evs)%list /\
              (csv_rows evs = [] \/
               exists rows,
                 csv_rows evs = ["Name"; "Value"; "Scope"; "Visibility"] :: rows /\
                 Forall (fun row : list string => length row = 4%nat) rows)).
  { intros st1 st2 (evs & Htr & Hrows). exists evs. split; [exact Htr | left; exact Hrows]. }
  unfold ExportVariables. cbv zeta.
  destruct (String.eqb (source_organization cfg) "" || String.eqb (source_token cfg) "").
  { intros H. injection H as _ <-. apply Hquiet, writes_no_row_refl. }
  pose proof (fetchGitHubVariables_writes_no_row E cfg EntityTypeOrg
                (source_organization cfg) "" (source_token cfg)
                [source_hostname cfg] st) as Horg.
  unfold FetchOrgVariables.
  destruct (fetchGitHubVariables E cfg EntityTypeOrg (source_organization cfg) ""
              (source_token cfg) [source_hostname cfg] st) as [orgRes st1];
    cbn [fst snd] in *.
  destruct (FetchAllRepositories E cfg fuel (source_organization cfg)
              (source_token cfg) [source_hostname cfg] st1)
    as [[[err | repos] st2] |] eqn:Hrepos; [| | discriminate].
  { apply FetchAllRepositories_writes_no_row in Hrepos.
    intros H. injection H as _ <-.
    apply Hquiet. eapply writes_no_row_trans; eassumption. }
  apply FetchAllRepositories_writes_no_row in Hrepos.
  match goal with
  | |- context [export_repos_loop E cfg ?o ?tk ?h repos ?vars ?a ?b st2] =>
      pose proof (export_repos_loop_writes_no_row E cfg o tk h repos vars a b st2)
        as Hloop;
      destruct (export_repos_loop E cfg o tk h repos vars a b st2)
        as [[[allVariables successful] failed] st3]
  end.
  cbn [snd] in Hloop.
  assert (H03 : writes_no_row st st3).
  { eapply writes_no_row_trans; [exact Horg |].
    eapply writes_no_row_trans; [exact Hrepos | exact Hloop]. }
  destruct (Z.of_nat (length allVariables) =? 0).
  { intros H. injection H as _ <-. apply Hquiet, H03. }
  destruct (os_Create E _) as [err |].
  { intros H. injection H as _ <-. apply Hquiet, H03. }
  destruct H03 as (evs & Htr & Hrows).
  unfold call_csv_Write at 1. unfold record_event.
  destruct (csv_Write E _ (world st3)) as [[err |] w4]; cbn [fst snd].
  { intros H. injection H as _ <-. cbn [trace].
    eexists (evs ++ [_])%list. rewrite Htr, <- app_assoc. split; [reflexivity |].
    right. exists []. rewrite csv_rows_app, Hrows. split; [reflexivity | constructor]. }
  match goal with
  | |- context [export_write_loop E allVariables ?n ?s4] =>
      destruct (export_write_loop_columns E allVariables n s4) as (rows & Htr4 & Hcols);
      destruct (export_write_loop E allVariables n s4) as [[err | written] st5]
  end; cbn [snd trace] in Htr4; intros H;
    (assert (Hst : st' = st5)
       by (first [injection H as _ <-; reflexivity
                 | destruct (failed >? 0); injection H as _ <-; reflexivity]));
    subst st'; clear H;
    (eexists ((evs ++ [_]) ++ map EvCsvWrite rows)%list;
     rewrite Htr4, Htr, !app_assoc; split; [reflexivity |];
     right; exists rows;
     rewrite !csv_rows_app, Hrows, csv_rows_map_EvCsvWrite; split;
     [reflexivity | exact Hcols]).
Qed.

Lemma ExportVariables_header_first_witness :
  exists evs,
    [EvListOrgVariables "acme";
     EvListByOrg "acme" {| Page := 0; PerPage := 100 |};
     EvListByOrg "acme" {| Page := 2; PerPage := 100 |};
     EvListRepoVariables "acme" "repoA"; EvListRepoVariables "acme" "repoB";
     EvCsvWrite ["Name"; "Value"; "Scope"; "Visibility"];
     EvCsvWrite ["VAR1"; "val1"; "organization"; "all"];
     EvCsvWrite ["VAR2"; "val2"; "organization"; "private"]]
    = (trace demo_state ++ evs)%list /\
    (csv_rows evs = [] \/
     exists rows,
       csv_rows evs = ["Name"; "Value"; "Scope"; "Visibility"] :: rows /\
       Forall (fun row : list string => length row = 4%nat) rows).
Proof.
  refine (ExportVariables_header_first (demo_env 0) (settings_of 3 None) 3 demo_state
            (Returned None) {| world := 8%nat; trace := _ |} _).
  vm_compute. reflexivity.
Defined.

(** X16: when every call that lists variables fails, the export writes
    nothing and never exits with status 1, however many repositories failed:
    it returns nil, having found no variable, unless its parameters are
    missing or the listing of the repositories fails. *)
Theorem ExportVariables_outage {W : Type} (E : Env W) (cfg : Settings)
    (fuel : nat) (st : State W) (t : Termination) (st' : State W) :
  (forall client o w, snd (fst (Actions_ListOrgVariables E client o w)) <> None) ->
  (forall client o r w, snd (fst (Actions_ListRepoVariables E client o r w)) <> None) ->
  ExportVariables E cfg fuel st = Some (t, st') ->
  writes_no_row st st' /\
  (t = Returned None \/
   t = Returned (Some (errorString
         "missing required environment variables: GHMV_SOURCE_ORGANIZATION, GHMV_SOURCE_TOKEN, or VARIABLES_CSV_FILE")) \/
   exists err, t = Returned (Some (Errorf_w "failed to fetch repositories: " err))).
Proof.
  intros Hlist Hlistrepo. unfold ExportVariables. cbv zeta.
  destruct (String.eqb (source_organization cfg) "" || String.eqb (source_token cfg) "").
  { intros H. injection H as <- <-. split; [apply writes_no_row_refl | auto]. }
  pose proof (fetchGitHubVariables_writes_no_row E cfg EntityTypeOrg
                (source_organization cfg) "" (source_token cfg)
                [source_hostname cfg] st) as Horg.
  destruct (fetchGitHubVariables_outage E cfg EntityTypeOrg (source_organization cfg) ""
              (source_token cfg) [source_hostname cfg] st Hlist Hlistrepo)
    as [orgErr HorgErr].
  unfold FetchOrgVariables.
  destruct (fetchGitHubVariables E cfg EntityTypeOrg (source_organization cfg) ""
              (source_token cfg) [source_hostname cfg] st) as [orgRes st1];
    cbn [fst snd] in *. subst orgRes.
  destruct (FetchAllRepositories E cfg fuel (source_organization cfg)
              (source_token cfg) [source_hostname cfg] st1)
    as [[[err | repos] st2] |] eqn:Hrepos; [| | discriminate].
  { apply FetchAllRepositories_writes_no_row in Hrepos.
    intros H. injection H as <- <-.
    split; [eapply writes_no_row_trans; eassumption |]. right. right. eauto. }
  apply FetchAllRepositories_writes_no_row in Hrepos.
  match goal with
  | |- context [export_repos_loop E cfg ?o ?tk ?h repos ?vars ?a ?b st2] =>
      pose proof (export_repos_loop_writes_no_row E cfg o tk h repos vars a b st2)
        as Hloop;
      pose proof (export_repos_loop_outage E cfg o tk h repos Hlist Hlistrepo
                    vars a b st2) as Hvars;
      destruct (export_repos_loop E cfg o tk h repos vars a b st2)
        as [[[allVariables successful] failed] st3]
  end.
  cbn [fst snd] in Hloop, Hvars. subst allVariables. cbn [length Z.of_nat Z.eqb].
  intros H. injection H as <- <-. split; [| left; reflexivity].
  eapply writes_no_row_trans; [exact Horg |].
  eapply writes_no_row_trans; [exact Hrepos | exact Hloop].
Qed.

Lemma ExportVariables_outage_witness :
  writes_no_row demo_state
    {| world := 11%nat;
       trace := [EvListOrgVariables "acme"; EvListOrgVariables "acme";
                 EvListOrgVariables "acme";
                 EvListByOrg "acme" {| Page := 0; PerPage := 100 |};
                 EvListByOrg "acme" {| Page := 2; PerPage := 100 |};
                 EvListRepoVariables "acme" "repoA";
                 EvListRepoVariables "acme" "repoA";
                 EvListRepoVariables "acme" "repoA";
                 EvListRepoVariables "acme" "repoB";
                 EvListRepoVariables "acme" "repoB";
                 EvListRepoVariables "acme" "repoB"] |} /\
  (Returned None = Returned None \/
   Returned None = Returned (Some (errorString
         "missing required environment variables: GHMV_SOURCE_ORGANIZATION, GHMV_SOURCE_TOKEN, or VARIABLES_CSV_FILE")) \/
   exists err, Returned None = Returned (Some (Errorf_w "failed to fetch repositories: " err))).
Proof.
  refine (ExportVariables_outage outage_env (settings_of 3 None) 3 demo_state
            (Returned None) _ _ _ _).
  - intros client o w. discriminate.
  - intros client o r w. discriminate.
  - vm_compute. reflexivity.
Defined.

(** ** From the export to the sync *)

(** The sync of a row for the organization: creation calls only, and the
    record is counted, as succeeded or as failed. *)
Lemma sync_record_organization_row {W : Type} (E : Env W) (cfg : Settings)
    (targetOrg targetToken hostname : string) (stats : Stats)
    (name value visibility : string) (st : State W) (client : Client) :
  targetOrg <> "" -> name <> "" ->
  initializeGitHubClient E cfg {| Token := targetToken; Hostname := hostname |}
    = inr client ->
  let r :=
    sync_record E cfg targetOrg targetToken hostname stats
      [name; value; "organization"; visibility] st in
  total (fst r) = total stats + 1 /\
  skipped (fst r) = skipped stats /\
  exists n : nat,
    (1 <= n <= Z.to_nat (maxRetries_of cfg))%nat /\
    trace (snd r)
      = (trace st
         ++ replicate n
              (EvCreateOrgVariable targetOrg
                 {| Name := name; Value := value;
                    Visibility := Some (if String.eqb visibility "" then "private"
                                        else visibility) |}))%list.
Proof.
  intros Horg Hname Hinit r. subst r.
  unfold sync_record. cbn [length nth]. cbv zeta.
  change (Z.of_nat 4 <? 4) with false. cbv iota.
  change (String.eqb "organization" "organization") with true. cbv iota.
  rewrite (AddOrgVariable_create E cfg targetOrg name value visibility
             targetToken [hostname] st client Horg Hname Hinit).
  cbv zeta. unfold retryWithDefaultContext.
  match goal with
  | |- context [retryWithExponentialBackoff cfg ?c ?op st] =>
      destruct (retry_run cfg c op st) as (m & Hm & Hatt & Hst & _);
      cbv zeta in Hatt, Hst;
      pose proof (state_at_trace (EvCreateOrgVariable targetOrg _) op
                    (fun s => eq_refl) (S m) st) as Htr;
      destruct (run_err (retryWithExponentialBackoff cfg c op st)); cbn [fst snd];
      (split; [reflexivity |]; split; [reflexivity |];
       exists (S m); split; [lia |]; rewrite Hst; exact Htr)
  end.
Qed.

(** X17: the name and the value of an organization variable go unchanged
    from the source to the target, when the file carries the rows over.
    For a variable that the reader keeps, the write loop of the export hands
    to the CSV writer one row: its name, its value, the scope "organization"
    and its visibility ("private" when it has none). Provided that the file
    that the sync opens is read as the header followed by the rows that were
    handed to the writer, [SyncVariables] counts one record, skips none, and
    makes only creation calls, between one and [MaxAttempts], for a variable
    of the same name and value in the target organization, whose visibility
    is that of the row, or "private" when it is empty. *)
Theorem export_sync_round_trip {W1 W2 : Type} (E1 : Env W1) (E2 : Env W2)
    (cfg : Settings) (v : ActionsVariable) (record : gmap string string)
    (written : Z) (st1 : State W1) (rows : list (list string))
    (client : Client) (st2 : State W2) :
  parseGitHubVariable (Some v) "organization" = Some record ->
  trace (snd (export_write_loop E1 [record] written st1))
    = (trace st1 ++ map EvCsvWrite rows)%list ->
  setting_file cfg <> "" -> target_organization cfg <> "" -> target_token cfg <> "" ->
  os_Open E2 (setting_file cfg) = None ->
  csv_ReadAll E2 (setting_file cfg)
    = inr (["Name"; "Value"; "Scope"; "Visibility"] :: rows) ->
  initializeGitHubClient E2 cfg
    {| Token := target_token cfg; Hostname := target_hostname cfg |} = inr client ->
  let visibility := default "private" (Visibility v) in
  let r := SyncVariables E2 cfg st2 in
  rows = [[Name v; Value v; "organization"; visibility]] /\
  (exists stats,
     snd (fst r) = Some stats /\ total stats = 1 /\ skipped stats = 0) /\
  exists n : nat,
    (1 <= n <= Z.to_nat (maxRetries_of cfg))%nat /\
    trace (snd r)
      = (trace st2
         ++ replicate n
              (EvCreateOrgVariable (target_organization cfg)
                 {| Name := Name v; Value := Value v;
                    Visibility := Some (if String.eqb visibility "" then "private"
                                        else visibility) |}))%list.
Proof.
  intros Hparse Hwritten Hfile Horg Htoken Hopen Hread Hinit visibility r.
  apply parseGitHubVariable_shape in Hparse
    as (v' & Hv & Hname & HN & HV & HS & HVis & _).
  injection Hv as <-.
  assert (Hrows : rows = [[Name v; Value v; "organization"; visibility]]).
  { cbn [export_write_loop] in Hwritten. rewrite HN in Hwritten.
    pose proof Hname as Hname'. apply String.eqb_neq in Hname'.
    rewrite Hname' in Hwritten. cbn [negb] in Hwritten.
    rewrite HV, HS, HVis in Hwritten. cbn [default] in Hwritten.
    unfold call_csv_Write, record_event in Hwritten.
    assert (Hone : (trace st1 ++ [EvCsvWrite [Name v; Value v; "organization"; visibility]])%list
                   = (trace st1 ++ map EvCsvWrite rows)%list).
    { rewrite <- Hwritten.
      destruct (csv_Write E1 _ (world st1)) as [[err |] w']; reflexivity. }
    apply app_inv_head in Hone.
    destruct rows as [| row [| row' rows']]; cbn [map] in Hone;
      [discriminate Hone | | discriminate Hone].
    injection Hone as <-. reflexivity. }
  split; [exact Hrows |]. subst rows r.
  unfold SyncVariables. cbv zeta.
  apply String.eqb_neq in Hfile, Htoken. pose proof Horg as Horg'.
  apply String.eqb_neq in Horg'.
  rewrite Hfile, Horg', Htoken, Hopen, Hread. cbn [orb sync_loop].
  destruct (sync_record_organization_row E2 cfg (target_organization cfg)
              (target_token cfg) (target_hostname cfg)
              {| total := 0; succeeded := 0; failed := 0; skipped := 0 |}
              (Name v) (Value v) visibility st2 client Horg Hname Hinit)
    as (Htotal & Hskipped & n & Hn & Htrace).
  cbv zeta in Htotal, Hskipped, Htrace. cbn [total skipped] in Htotal, Hskipped.
  match goal with
  | |- context [failed ?stats >? 0] => destruct (failed stats >? 0)
  end; cbn [fst snd];
    (split; [eexists; split; [reflexivity | split; [exact Htotal | exact Hskipped]] |];
     exists n; split; [exact Hn | exact Htrace]).
Qed.

Lemma export_sync_round_trip_witness :
  let row := ["VAR2"; "val2"; "organization"; "private"] in
  let r := SyncVariables (reading_env [row]) (sync_settings "acme_variables.csv")
             demo_state in
  [row] = [["VAR2"; "val2"; "organization"; "private"]] /\
  (exists stats,
     snd (fst r) = Some stats /\ total stats = 1 /\ skipped stats = 0) /\
  exists n : nat,
    (1 <= n <= 3)%nat /\
    trace (snd r)
      = (trace demo_state
         ++ replicate n
              (EvCreateOrgVariable "acme"
                 {| Name := "VAR2"; Value := "val2"; Visibility := Some "private" |}))%list.
Proof.
  refine (export_sync_round_trip (demo_env 0)
            (reading_env [["VAR2"; "val2"; "organization"; "private"]])
            (sync_settings "acme_variables.csv")
            {| Name := "VAR2"; Value := "val2"; Visibility := None |}
            ({[ "Name" := "VAR2"; "Value" := "val2"; "Scope" := "organization";
                "Visibility" := "private" ]} : gmap string string)
            0 demo_state [["VAR2"; "val2"; "organization"; "private"]]
            {| client_config := {| Token := "t0ken"; Hostname := "" |};
               client_proxy := loadProxyConfigFromEnv (sync_settings "acme_variables.csv") |}
            demo_state _ _ _ _ _ _ _ _).
  - vm_compute. reflexivity.
  - vm_compute. reflexivity.
  - discriminate.
  - discriminate.
  - discriminate.
  - reflexivity.
  - reflexivity.
  - reflexivity.
Defined.

(** ** The endpoint of the connection *)

Lemma string_chars_app (a b : string) :
  String.list_ascii_of_string (a +:+ b)
  = (String.list_ascii_of_string a ++ String.list_ascii_of_string b)%list.
Proof.
  induction a as [| x a IH]; [reflexivity |].
  change (x :: String.list_ascii_of_string (a +:+ b)
          = x :: (String.list_ascii_of_string a ++ String.list_ascii_of_string b)%list).
  rewrite IH. reflexivity.
Qed.

Lemma substring_full (s : string) : String.substring 0 (String.length s) s = s.
Proof. induction s as [| c s IH]; [reflexivity |]. cbn. rewrite IH. reflexivity. Qed.

Lemma substring_app_prefix (p s : string) :
  String.substring 0 (String.length p) (p +:+ s) = p.
Proof.
  induction p as [| c p IH]; [destruct s; reflexivity |].
  change (String c (String.substring 0 (String.length p) (p +:+ s)) = String c p).
  rewrite IH. reflexivity.
Qed.

Lemma substring_app_skip (p s : string) (n : nat) :
  String.substring (String.length p) n (p +:+ s) = String.substring 0 n s.
Proof.
  induction p as [| c p IH]; [reflexivity |].
  change (String.substring (String.length p) n (p +:+ s) = String.substring 0 n s).
  exact IH.
Qed.

Lemma substring_split (s : string) :
  forall n : nat, (n <= String.length s)%nat ->
    s = String.substring 0 n s +:+ String.substring n (String.length s - n) s.
Proof.
  induction s as [| c s IH]; intros n Hn.
  - destruct n; reflexivity.
  - destruct n as [| n].
    + change (String c s = String.substring 0 (String.length (String c s)) (String c s)).
      rewrite substring_full. reflexivity.
    + cbn in Hn.
      change (String c s = String c (String.substring 0 n s
                                     +:+ String.substring n (String.length s - n) s)).
      rewrite <- IH by lia. reflexivity.
Qed.

Lemma HasPrefix_prefix (p : string) :
  forall s, HasPrefix s p = String.prefix p s.
Proof.
  unfold HasPrefix. induction p as [| a p IH]; intros s.
  - destruct s; reflexivity.
  - destruct s as [| c s]; [reflexivity |].
    specialize (IH s). cbn [String.length String.prefix].
    change (String.substring 0 (S (String.length p)) (String c s))
      with (String c (String.substring 0 (String.length p) s)).
    cbn [String.eqb]. change (S (String.length p) <=? S (String.length s))%nat
      with (String.length p <=? String.length s)%nat.
    destruct (ascii_dec a c) as [-> | Hne].
    + rewrite Ascii.eqb_refl. exact IH.
    + apply not_eq_sym, Ascii.eqb_neq in Hne. rewrite Hne.
      apply andb_false_r.
Qed.

Lemma TrimPrefix_app (p s : string) : TrimPrefix (p +:+ s) p = s.
Proof.
  unfold TrimPrefix, HasPrefix.
  rewrite substring_app_prefix, String.eqb_refl, string_length_app.
  replace (String.length p <=? String.length p + String.length s)%nat with true
    by (symmetry; apply Nat.leb_le; lia).
  cbn [andb]. rewrite substring_app_skip.
  replace (String.length p + String.length s - String.length p)%nat
    with (String.length s) by lia.
  apply substring_full.
Qed.

Lemma TrimSuffix_app (s x : string) : TrimSuffix (s +:+ x) x = s.
Proof.
  unfold TrimSuffix, HasSuffix. rewrite string_length_app.
  replace (String.length s + String.length x - String.length x)%nat
    with (String.length s) by lia.
  rewrite substring_app_skip, substring_full, String.eqb_refl, substring_app_prefix.
  replace (String.length x <=? String.length s + String.length x)%nat with true
    by (symmetry; apply Nat.leb_le; lia).
  reflexivity.
Qed.

Lemma HasSuffix_app (x q : string) :
  HasSuffix x q = true -> exists r, x = r +:+ q.
Proof.
  unfold HasSuffix. intros H. apply andb_true_iff in H as [Hlen Heq].
  apply Nat.leb_le in Hlen. apply String.eqb_eq in Heq.
  exists (String.substring 0 (String.length x - String.length q) x).
  rewrite (substring_split x (String.length x - String.length q)) at 1 by lia.
  f_equal. replace (String.length x - (String.length x - String.length q))%nat
    with (String.length q) by lia.
  exact Heq.
Qed.

Lemma prefix_app_cases (p : string) :
  forall h s, String.prefix p (h +:+ s) = true ->
    String.prefix p h = true \/ exists b, p = h +:+ b /\ String.prefix b s = true.
Proof.
  induction p as [| a p IH]; intros h s H.
  - left. destruct h; reflexivity.
  - destruct h as [| c h].
    + right. exists (String a p). split; [reflexivity | exact H].
    + change (String.prefix (String a p) (String c (h +:+ s)) = true) in H.
      cbn [String.prefix] in *. destruct (ascii_dec a c) as [-> | Hne]; [| discriminate].
      destruct (IH h s H) as [Hp | (b & -> & Hb)]; [left; exact Hp |].
      right. exists b. split; [reflexivity | exact Hb].
Qed.

Lemma prefix_chars (p : string) :
  forall h c, String.prefix p h = true ->
    In c (String.list_ascii_of_string p) -> In c (String.list_ascii_of_string h).
Proof.
  induction p as [| a p IH]; intros h c H Hin; [contradiction |].
  destruct h as [| x h]; [discriminate |].
  cbn [String.prefix] in H. destruct (ascii_dec a x) as [-> | ]; [| discriminate].
  cbn [String.list_ascii_of_string] in *. destruct Hin as [-> | Hin]; [left; reflexivity |].
  right. eapply IH; eassumption.
Qed.

Lemma TrimPrefix_none (x p : string) : HasPrefix x p = false -> TrimPrefix x p = x.
Proof. unfold TrimPrefix. intros ->. reflexivity. Qed.

Lemma TrimSuffix_none (x q : string) : HasSuffix x q = false -> TrimSuffix x q = x.
Proof. unfold TrimSuffix. intros ->. reflexivity. Qed.

Lemma slash_end_not_v3 (x r : string) : x +:+ "/" <> r +:+ "/api/v3".
Proof.
  intros H. apply (f_equal String.list_ascii_of_string) in H.
  rewrite !string_chars_app in H. apply (f_equal (@rev ascii)) in H.
  rewrite !rev_app_distr in H. cbn in H. discriminate H.
Qed.

(** A host name followed by one of the endings does not start with a
    scheme. *)
Lemma bare_host_no_scheme (h s p : string) :
  ~ In "/"%char (String.list_ascii_of_string h) ->
  In s [""; "/"; "/api/v3"; "/api/v3/"] ->
  In p ["http://"; "https://"] ->
  HasPrefix (h +:+ s) p = false.
Proof.
  intros Hns Hs Hp. rewrite HasPrefix_prefix.
  destruct (String.prefix p (h +:+ s)) eqn:H; [exfalso | reflexivity].
  apply prefix_app_cases in H as [Hph | (b & Hpb & Hb)].
  - apply Hns. eapply prefix_chars; [exact Hph |].
    destruct Hp as [<- | [<- | []]]; cbn; tauto.
  - assert (Hstep : forall (c : ascii) (h' : string),
              ~ In "/"%char (String.list_ascii_of_string (String c h')) ->
              c <> "/"%char /\ ~ In "/"%char (String.list_ascii_of_string h')).
    { intros c h' Hn. split; [intros -> | intros Hin]; apply Hn; cbn; tauto. }
    destruct Hp as [<- | [<- | []]];
      repeat match goal with
             | Hn : ~ In _ (String.list_ascii_of_string ?x), Heq : _ = ?x +:+ b |- _ =>
                 destruct x as [| ? x];
                 [ change (String.append "" b) with b in Heq; subst b;
                   destruct Hs as [<- | [<- | [<- | [<- | []]]]]; discriminate Hb
                 | apply Hstep in Hn as [? Hn];
                   change (String.append (String a x) b) with (String a (x +:+ b)) in Heq;
                   first [discriminate Heq
                         | injection Heq as <- Heq; try congruence] ]
             end.
Qed.

Lemma bare_host_no_suffix (h q : string) :
  ~ In "/"%char (String.list_ascii_of_string h) ->
  In q ["/"; "/api/v3"] ->
  HasSuffix h q = false.
Proof.
  intros Hns Hq. destruct (HasSuffix h q) eqn:H; [exfalso | reflexivity].
  apply HasSuffix_app in H as [r ->]. apply Hns.
  rewrite string_chars_app. apply in_or_app. right.
  destruct Hq as [<- | [<- | []]]; cbn; tauto.
Qed.

Lemma slash_end_HasSuffix (x : string) : HasSuffix (x +:+ "/") "/api/v3" = false.
Proof.
  destruct (HasSuffix (x +:+ "/") "/api/v3") eqn:H; [exfalso | reflexivity].
  apply HasSuffix_app in H as [r Hr]. exact (slash_end_not_v3 x r Hr).
Qed.

(** The endpoint computed from the stored text [p +:+ h +:+ s], and its
    computation again from the result. *)
Lemma normalized_spellings (h p s : string) :
  bare_host h ->
  In p [""; "http://"; "https://"] ->
  In s [""; "/"; "/api/v3"; "/api/v3/"] ->
  TrimSuffix (TrimSuffix (TrimPrefix (TrimPrefix (p +:+ h +:+ s) "http://") "https://")
                "/api/v3") "/"
  = if String.eqb s "/api/v3/" then h +:+ "/api/v3" else h.
Proof.
  intros [Hne Hns] Hp Hs.
  assert (Hpre : TrimPrefix (TrimPrefix (p +:+ h +:+ s) "http://") "https://" = h +:+ s).
  { destruct Hp as [<- | [<- | [<- | []]]].
    - change ("" +:+ h +:+ s) with (h +:+ s).
      rewrite (TrimPrefix_none (h +:+ s) "http://")
        by (apply bare_host_no_scheme; cbn; tauto).
      apply TrimPrefix_none, bare_host_no_scheme; cbn; tauto.
    - rewrite TrimPrefix_app. apply TrimPrefix_none, bare_host_no_scheme; cbn; tauto.
    - rewrite (TrimPrefix_none ("https://" +:+ h +:+ s) "http://")
        by (rewrite HasPrefix_prefix; reflexivity).
      apply TrimPrefix_app. }
  rewrite Hpre.
  destruct Hs as [<- | [<- | [<- | [<- | []]]]]; cbn [String.eqb Ascii.eqb Bool.eqb].
  - rewrite string_app_nil_r.
    rewrite (TrimSuffix_none h "/api/v3") by (apply bare_host_no_suffix; cbn; tauto).
    apply TrimSuffix_none, bare_host_no_suffix; cbn; tauto.
  - rewrite (TrimSuffix_none (h +:+ "/") "/api/v3") by apply slash_end_HasSuffix.
    apply TrimSuffix_app.
  - rewrite TrimSuffix_app. apply TrimSuffix_none, bare_host_no_suffix; cbn; tauto.
  - change (h +:+ "/api/v3/") with (h +:+ "/api/v3" +:+ "/").
    rewrite <- string_app_assoc.
    rewrite (TrimSuffix_none ((h +:+ "/api/v3") +:+ "/") "/api/v3")
      by apply slash_end_HasSuffix.
    apply TrimSuffix_app.
Qed.

Lemma spelling_not_empty (h p s : string) : h <> "" -> p +:+ h +:+ s <> "".
Proof.
  intros Hne H. apply (f_equal String.length) in H.
  rewrite !string_length_app in H. destruct h; [congruence | cbn in H; lia].
Qed.

(** X18: the usual spellings of an enterprise host are brought to one
    endpoint. For a host name [h] without a slash, stored under the source or
    the target hostname key as [h] itself or with "http://" or "https://" in
    front, and with nothing, "/" or "/api/v3" behind, [getNormalizedEndpoint]
    returns "https://h/api/v3" and stores it under the key; called again, it
    returns the same endpoint and leaves the settings as they are. *)
Theorem getNormalizedEndpoint_canonical (cfg : Settings) (key h p s : string) :
  key = "source-hostname" \/ key = "target-hostname" ->
  bare_host h ->
  In p [""; "http://"; "https://"] ->
  In s [""; "/"; "/api/v3"] ->
  viper_GetString cfg key = p +:+ h +:+ s ->
  let r := getNormalizedEndpoint key cfg in
  let endpoint := "https://" +:+ h +:+ "/api/v3" in
  fst r = endpoint /\
  viper_GetString (snd r) key = endpoint /\
  getNormalizedEndpoint key (snd r) = (endpoint, snd r).
Proof.
  intros Hkey Hbare Hp Hs Hget r endpoint.
  assert (Hfirst : getNormalizedEndpoint key cfg = (endpoint, viper_Set cfg key endpoint)).
  { unfold getNormalizedEndpoint. rewrite Hget.
    destruct (String.eqb_spec (p +:+ h +:+ s) "") as [He | _];
      [exfalso; exact (spelling_not_empty h p s (proj1 Hbare) He) |].
    cbn [negb]. cbv zeta.
    rewrite (normalized_spellings h p s Hbare Hp)
      by (destruct Hs as [<- | [<- | [<- | []]]]; cbn; tauto).
    destruct Hs as [<- | [<- | [<- | []]]]; reflexivity. }
  assert (Hstored : viper_GetString (viper_Set cfg key endpoint) key = endpoint)
    by (destruct Hkey as [-> | ->]; reflexivity).
  subst r. rewrite Hfirst. cbn [fst snd].
  split; [reflexivity |]. split; [exact Hstored |].
  unfold getNormalizedEndpoint. rewrite Hstored.
  destruct (String.eqb_spec endpoint "") as [He | _]; [discriminate He |].
  cbn [negb]. cbv zeta. subst endpoint.
  rewrite (normalized_spellings h "https://" "/api/v3" Hbare) by (cbn; tauto).
  cbn [String.eqb Ascii.eqb Bool.eqb]. f_equal.
  destruct Hkey as [-> | ->]; reflexivity.
Qed.

Lemma getNormalizedEndpoint_canonical_witness :
  let cfg := viper_Set (settings_of 3 None) "target-hostname" "http://ghe.example.com/" in
  let r := getNormalizedEndpoint "target-hostname" cfg in
  fst r = "https://ghe.example.com/api/v3" /\
  viper_GetString (snd r) "target-hostname" = "https://ghe.example.com/api/v3" /\
  getNormalizedEndpoint "target-hostname" (snd r)
    = ("https://ghe.example.com/api/v3", snd r).
Proof.
  refine (getNormalizedEndpoint_canonical
            (viper_Set (settings_of 3 None) "target-hostname" "http://ghe.example.com/")
            "target-hostname" "ghe.example.com" "http://" "/" _ _ _ _ _).
  - right. reflexivity.
  - split; [discriminate |]. cbn. intros H.
    repeat (destruct H as [H | H]; [discriminate H |]). exact H.
  - cbn. tauto.
  - cbn. tauto.
  - reflexivity.
Defined.

(** X19: a slash after "/api/v3" is not made up for: the suffix "/api/v3"
    is looked for before the final slash is removed, so that for a host name
    [h] without a slash, stored with "/api/v3/" behind it,
    [getNormalizedEndpoint] returns an endpoint that ends with "/api/v3"
    twice. *)
Theorem getNormalizedEndpoint_trailing_slash (cfg : Settings) (key h p : string) :
  bare_host h ->
  In p [""; "http://"; "https://"] ->
  viper_GetString cfg key = p +:+ h +:+ "/api/v3/" ->
  fst (getNormalizedEndpoint key cfg) = "https://" +:+ h +:+ "/api/v3/api/v3".
Proof.
  intros Hbare Hp Hget. unfold getNormalizedEndpoint. rewrite Hget.
  destruct (String.eqb_spec (p +:+ h +:+ "/api/v3/") "") as [He | _];
    [exfalso; exact (spelling_not_empty h p "/api/v3/" (proj1 Hbare) He) |].
  cbn [negb fst]. cbv zeta.
  rewrite (normalized_spellings h p "/api/v3/" Hbare Hp) by (cbn; tauto).
  cbn [String.eqb Ascii.eqb Bool.eqb fst].
  rewrite string_app_assoc. reflexivity.
Qed.

Lemma getNormalizedEndpoint_trailing_slash_witness :
  fst (getNormalizedEndpoint "source-hostname"
         (viper_Set (settings_of 3 None) "source-hostname"
            "https://ghe.example.com/api/v3/"))
  = "https://ghe.example.com/api/v3/api/v3".
Proof.
  refine (getNormalizedEndpoint_trailing_slash
            (viper_Set (settings_of 3 None) "source-hostname"
               "https://ghe.example.com/api/v3/")
            "source-hostname" "ghe.example.com" "https://" _ _ _).
  - split; [discriminate |]. cbn. intros H.
    repeat (destruct H as [H | H]; [discriminate H |]). exact H.
  - cbn. tauto.
  - reflexivity.
Defined.

(** X20: [ShowConnectionStatus] changes nothing in the settings but the
    hostname of its action, the source hostname for "export" and the target
    hostname for "sync"; an empty hostname, which stands for GitHub.com, stays
    empty; and for another action the settings are left as they are. *)
Theorem ShowConnectionStatus_frame (actionType : string) (cfg : Settings) :
  let cfg' := ShowConnectionStatus actionType cfg in
  RETRY_MAX cfg' = RETRY_MAX cfg /\ RETRY_DELAY cfg' = RETRY_DELAY cfg /\
  HTTP_PROXY cfg' = HTTP_PROXY cfg /\ HTTPS_PROXY cfg' = HTTPS_PROXY cfg /\
  NO_PROXY cfg' = NO_PROXY cfg /\
  source_organization cfg' = source_organization cfg /\
  source_token cfg' = source_token cfg /\
  setting_file cfg' = setting_file cfg /\
  target_organization cfg' = target_organization cfg /\
  target_token cfg' = target_token cfg /\
  (actionType <> "export" -> source_hostname cfg' = source_hostname cfg) /\
  (actionType <> "sync" -> target_hostname cfg' = target_hostname cfg) /\
  (source_hostname cfg = "" -> source_hostname cfg' = "") /\
  (target_hostname cfg = "" -> target_hostname cfg' = "").
Proof.
  unfold ShowConnectionStatus, getNormalizedEndpoint.
  destruct (String.eqb_spec actionType "export") as [-> | Hexport].
  - change (viper_GetString cfg "source-hostname") with (source_hostname cfg).
    destruct (String.eqb_spec (source_hostname cfg) "") as [He | Hne]; cbn [negb snd];
      repeat split; intros; first [reflexivity | assumption | congruence].
  - destruct (String.eqb_spec actionType "sync") as [-> | Hsync].
    + change (viper_GetString cfg "target-hostname") with (target_hostname cfg).
      destruct (String.eqb_spec (target_hostname cfg) "") as [He | Hne]; cbn [negb snd];
        repeat split; intros; first [reflexivity | assumption | congruence].
    + cbn. repeat split; intros; first [reflexivity | assumption].
Qed.

(** ** The hosts that bypass the proxy *)

Lemma Split_cons (s : string) (sep : ascii) :
  exists piece pieces, Split s sep = piece :: pieces.
Proof.
  induction s as [| c s (piece & pieces & IH)]; cbn [Split]; [eauto |].
  destruct (Ascii.eqb c sep); [eauto |]. rewrite IH. eauto.
Qed.

Lemma Split_no_sep (e : string) (sep : ascii) :
  ~ In sep (String.list_ascii_of_string e) ->
  forall rest piece pieces,
    Split rest sep = piece :: pieces ->
    Split (e +:+ rest) sep = (e +:+ piece) :: pieces.
Proof.
  induction e as [| c e IH]; intros Hns rest piece pieces Hrest.
  - exact Hrest.
  - change (String c e +:+ rest) with (String c (e +:+ rest)). cbn [Split].
    destruct (Ascii.eqb_spec c sep) as [-> | Hne]; [exfalso; apply Hns; cbn; tauto |].
    rewrite (IH (fun H => Hns (or_intror H)) rest piece pieces Hrest). reflexivity.
Qed.

Lemma Split_concat (sep : ascii) (entries : list string) :
  entries <> [] ->
  Forall (fun e => ~ In sep (String.list_ascii_of_string e)) entries ->
  Split (String.concat (String sep "") entries) sep = entries.
Proof.
  intros Hne Hall. induction Hall as [| e rest He Hrest IH]; [congruence |].
  destruct rest as [| e' rest'].
  - cbn [String.concat]. rewrite <- (string_app_nil_r e) at 1.
    rewrite (Split_no_sep e sep He "" "" []) by reflexivity.
    rewrite string_app_nil_r. reflexivity.
  - change (String.concat (String sep "") (e :: e' :: rest'))
      with (e +:+ String sep (String.concat (String sep "") (e' :: rest'))).
    rewrite (Split_no_sep e sep He _ "" (e' :: rest')).
    + rewrite string_app_nil_r. reflexivity.
    + cbn [Split]. rewrite Ascii.eqb_refl. rewrite IH by discriminate. reflexivity.
Qed.

(** X21: every host listed in NO_PROXY bypasses the proxy. When NO_PROXY is
    a list of entries joined by commas and not empty, a request whose host is
    one of the entries, white space around the entry left aside, gets no
    proxy, whatever its scheme and whatever HTTP_PROXY and HTTPS_PROXY
    are. *)
Theorem no_proxy_listed_host (url_Parse : string -> option URL * option error)
    (pc : ProxyConfig) (req : Request) (entries : list string) :
  NoProxy pc = String.concat "," entries ->
  NoProxy pc <> "" ->
  Forall (fun e => ~ In ","%char (String.list_ascii_of_string e)) entries ->
  Exists (fun e => TrimSpace e = Host (req_URL req)) entries ->
  buildProxyFunction url_Parse (Some pc) req = (None, None).
Proof.
  intros Hlist Hne Hcommas Hlisted. unfold buildProxyFunction.
  apply String.eqb_neq in Hne. rewrite Hne. cbn [negb].
  assert (Hentries : entries <> []) by (intros ->; inversion Hlisted).
  rewrite Hlist, (Split_concat ","%char entries Hentries Hcommas).
  apply noProxy_loop_Exists in Hlisted. rewrite Hlisted. reflexivity.
Qed.

Lemma no_proxy_listed_host_witness :
  buildProxyFunction (fun raw => (Some {| Scheme := "http"; Host := raw |}, None))
    (Some {| HTTPProxy := "proxy.local:3128"; HTTPSProxy := "secure.local:3129";
             NoProxy := "localhost, github.example.com ,10.0.0.1" |})
    {| req_URL := {| Scheme := "https"; Host := "github.example.com" |} |}
  = (None, None).
Proof.
  refine (no_proxy_listed_host _ _ _ ["localhost"; " github.example.com "; "10.0.0.1"]
            _ _ _ _).
  - reflexivity.
  - discriminate.
  - repeat constructor; cbn; intros H;
      repeat (destruct H as [H | H]; [discriminate H |]); exact H.
  - right. left. reflexivity.
Defined.

(** ** Records of the sync that reach no creation *)

(** X22: a record for a repository whose lookup fails, or succeeds with a
    status other than 200, is counted as skipped after this one lookup: no
    creation is attempted, and a lookup that failed for a passing reason is
    not told apart from a repository that is not there. *)
Theorem sync_record_missing_repository {W : Type} (E : Env W) (cfg : Settings)
    (targetOrg targetToken hostname : string) (stats : Stats)
    (name value scope visibility : string) (st : State W) (client : Client)
    (lookup : error + Response) (w1 : W) :
  targetOrg <> "" -> name <> "" -> scope <> "" -> scope <> "organization" ->
  initializeGitHubClient E cfg {| Token := targetToken; Hostname := hostname |}
    = inr client ->
  Repositories_Get E client targetOrg scope (world st) = (lookup, w1) ->
  match lookup with
  | inl _ => True
  | inr resp => StatusCode resp <> 200
  end ->
  sync_record E cfg targetOrg targetToken hostname stats
    [name; value; scope; visibility] st
  = (incr_skipped (incr_total stats),
     {| world := w1; trace := (trace st ++ [EvGetRepository targetOrg scope])%list |}).
Proof.
  intros Horg Hname Hscope Hnotorg Hinit Hget Hlookup.
  unfold sync_record. cbn [length nth]. change (Z.of_nat 4 <? 4) with false.
  cbv iota zeta.
  apply String.eqb_neq in Hnotorg. rewrite Hnotorg.
  assert (Hadd :
    AddRepoVariable E cfg targetOrg scope name value visibility targetToken [hostname] st
    = (Some (repositoryNotFound scope targetOrg),
       {| world := w1; trace := (trace st ++ [EvGetRepository targetOrg scope])%list |})).
  { unfold AddRepoVariable, addGitHubVariable, doesRepositoryExist, call_Get,
      record_event.
    apply String.eqb_neq in Horg, Hname, Hscope.
    rewrite Horg, Hname, Hscope. cbn [orb andb extractHostname].
    rewrite andb_false_r, Hinit, Hget.
    replace (String.eqb EntityTypeRepository EntityTypeRepository) with true
      by reflexivity.
    destruct lookup as [err | resp]; cbn [fst snd]; [reflexivity |].
    apply Z.eqb_neq in Hlookup. rewrite Hlookup. reflexivity. }
  rewrite Hadd. cbn [Error repositoryNotFound]. rewrite String.eqb_refl. reflexivity.
Qed.

Lemma sync_record_missing_repository_witness :
  sync_record (demo_env 1) (settings_of 3 None) "acme" "t0ken" ""
    {| total := 0; succeeded := 0; failed := 0; skipped := 0 |}
    ["VAR2"; "val2"; "repoA"; "private"] demo_state
  = ({| total := 1; succeeded := 0; failed := 0; skipped := 1 |},
     {| world := 1%nat; trace := [EvGetRepository "acme" "repoA"] |}).
Proof.
  refine (sync_record_missing_repository (demo_env 1) (settings_of 3 None) "acme"
            "t0ken" "" {| total := 0; succeeded := 0; failed := 0; skipped := 0 |}
            "VAR2" "val2" "repoA" "private" demo_state
            {| client_config := {| Token := "t0ken"; Hostname := "" |};
               client_proxy := loadProxyConfigFromEnv (settings_of 3 None) |}
            (inl (errorString "502 Bad Gateway")) 1%nat _ _ _ _ _ _ _).
  - discriminate.
  - discriminate.
  - discriminate.
  - discriminate.
  - reflexivity.
  - reflexivity.
  - exact I.
Defined.

(** X23: a record of four columns whose name or whose scope is empty is
    counted as failed, not as skipped, without a remote call: the writer
    refuses the empty name, and takes the empty scope for a repository
    without a name. *)
Theorem sync_record_empty_field {W : Type} (E : Env W) (cfg : Settings)
    (targetOrg targetToken hostname : string) (stats : Stats)
    (name value scope visibility : string) (st : State W) :
  name = "" \/ scope = "" ->
  sync_record E cfg targetOrg targetToken hostname stats
    [name; value; scope; visibility] st
  = (incr_failed (incr_total stats), st).
Proof.
  intros Hempty. unfold sync_record. cbn [length nth].
  change (Z.of_nat 4 <? 4) with false. cbv iota zeta.
  unfold AddOrgVariable, AddRepoVariable, addGitHubVariable.
  destruct (String.eqb_spec scope "organization") as [-> | Hnotorg].
  - destruct Hempty as [-> | Hs]; [| discriminate Hs].
    rewrite orb_true_r. reflexivity.
  - destruct (String.eqb targetOrg "" || String.eqb name "") eqn:Hfirst.
    + match goal with
      | |- context [String.eqb ?a ?b] =>
          destruct (String.eqb_spec a b) as [Heq | _];
          [cbn in Heq; discriminate Heq | reflexivity]
      end.
    + apply orb_false_iff in Hfirst as [_ Hname]. apply String.eqb_neq in Hname.
      destruct Hempty as [-> | ->]; [congruence |].
      replace (String.eqb EntityTypeRepository EntityTypeRepository) with true
        by reflexivity.
      cbn [andb String.eqb].
      match goal with
      | |- context [String.eqb (Error ?e) ?b] =>
          destruct (String.eqb_spec (Error e) b) as [Heq | _];
          [cbn in Heq; discriminate Heq | reflexivity]
      end.
Qed.

Lemma sync_record_empty_field_witness :
  sync_record (demo_env 0) (settings_of 3 None) "acme" "t0ken" ""
    {| total := 0; succeeded := 0; failed := 0; skipped := 0 |}
    [""; "val"; "repoA"; "private"] demo_state
  = ({| total := 1; succeeded := 0; failed := 1; skipped := 0 |}, demo_state).
Proof.
  refine (sync_record_empty_field (demo_env 0) (settings_of 3 None) "acme" "t0ken" ""
            {| total := 0; succeeded := 0; failed := 0; skipped := 0 |}
            "" "val" "repoA" "private" demo_state _).
  left. reflexivity.
Defined.
